(** * spoti_data: [scripts/download_features.py]

    A shallow embedding of the download script: the three fetch functions
    ([get_id], [get_track_data], [get_track_audio_features]) and the
    orchestrator [main], followed by the properties of the pipeline.

    The script is sequential Python with three kinds of effects: HTTP
    requests, a line printed per unmatched query, and three CSV files.  They
    are modelled by a state-and-exception monad [M] over a [World] that logs
    all three.  The upstream Web API is a parameter of the development: a
    function from the requests seen so far and the current request to what
    [requests.get] observes. *)

From Stdlib Require Import ZArith Ascii String List Lia.
From stdpp Require Import base option list strings gmap.

Local Open Scope string_scope.
Local Open Scope Z_scope.
Local Open Scope list_scope.

(** ** Python values

    What [response.json()] produces: [None], [bool], [int], [float], [str],
    [list] and [dict].  A float is kept as the decimal [m * 10^e] it was read
    from; the script never computes with one.  A [dict] keeps its insertion
    order and has unique keys. *)

#[warnings="-register-all"]
Inductive value : Type :=
| VNone
| VBool (b : bool)
| VInt (n : Z)
| VFloat (m e : Z)
| VStr (s : string)
| VList (l : list value)
| VDict (d : list (string * value)).

Definition dict : Type := list (string * value).

(** The exceptions the script can meet: those of [requests], of the built-in
    containers, and of pandas. *)
Inductive exn : Type :=
| Timeout
| ConnectionError
| HTTPError (status : Z)
| JSONDecodeError
| KeyError (key : value)
| IndexError
| TypeError
| AttributeError (name : string)
| ValueError.

Inductive result (A : Type) : Type :=
| Ok (a : A)
| Raise (e : exn).
Arguments Ok {A} a.
Arguments Raise {A} e.

Definition rbind {A B} (r : result A) (f : A -> result B) : result B :=
  match r with
  | Ok a => f a
  | Raise e => Raise e
  end.

Declare Scope result_scope.
Delimit Scope result_scope with res.
Notation "x <- r ;; k" := (rbind r (fun x => k))
  (at level 200, r at level 99, k at level 200) : result_scope.

Fixpoint mapM {A B} (f : A -> result B) (l : list A) : result (list B) :=
  match l with
  | [] => Ok []
  | x :: l' => (y <- f x ;; ys <- mapM f l' ;; Ok (y :: ys))%res
  end.

(** [d.get(k)] on a dict. *)
Fixpoint dict_get (d : dict) (k : string) : option value :=
  match d with
  | [] => None
  | (k', v) :: d' => if decide (k' = k) then Some v else dict_get d' k
  end.

(** [d[k] = v]: an existing key keeps its place, a new one goes last. *)
Fixpoint dict_set (d : dict) (k : string) (v : value) : dict :=
  match d with
  | [] => [(k, v)]
  | (k', v') :: d' =>
      if decide (k' = k) then (k, v) :: d' else (k', v') :: dict_set d' k v
  end.

(** [obj[key]] with a string key. *)
Definition getitem (obj : value) (key : string) : result value :=
  match obj with
  | VDict d =>
      match dict_get d key with
      | Some v => Ok v
      | None => Raise (KeyError (VStr key))
      end
  | _ => Raise TypeError
  end.

(** [obj[i]] with a non-negative integer index. *)
Definition getindex (obj : value) (i : nat) : result value :=
  match obj with
  | VList l =>
      match l !! i with
      | Some v => Ok v
      | None => Raise IndexError
      end
  | VStr s =>
      match String.get i s with
      | Some c => Ok (VStr (String c EmptyString))
      | None => Raise IndexError
      end
  | VDict _ => Raise (KeyError (VInt (Z.of_nat i)))
  | _ => Raise TypeError
  end.

(** [len(obj)]. *)
Definition py_len (obj : value) : result nat :=
  match obj with
  | VList l => Ok (length l)
  | VDict d => Ok (length d)
  | VStr s => Ok (String.length s)
  | _ => Raise TypeError
  end.

(** [obj[key] = v]: only a dict takes a string key. *)
Definition setitem (obj : value) (key : string) (v : value) : result dict :=
  match obj with
  | VDict d => Ok (dict_set d key v)
  | _ => Raise TypeError
  end.

(** ** Track ids

    [get_id] is annotated [Optional[str]] and the two other fetchers take
    [track_id: str].  The orchestrator is modelled at that type: a track id is
    a string or absent.  [as_track_id] reads a Python value at that type; a
    value outside the annotation (a number, a list, ...) is rejected with
    [TypeError], where Python, which does not check annotations, would carry
    it on. *)

Definition track_id : Type := option string.

Definition as_track_id (v : value) : result track_id :=
  match v with
  | VStr s => Ok (Some s)
  | VNone => Ok None
  | _ => Raise TypeError
  end.

Definition of_track_id (i : track_id) : value :=
  match i with
  | Some s => VStr s
  | None => VNone
  end.

(** ** Tables

    A pandas DataFrame: column labels and one list of cells per row.  A cell
    is an object, a timestamp (nanoseconds since the epoch, as pandas stores
    it) or the missing-value marker. *)

Inductive cell : Type :=
| NaN
| Obj (v : value)
| Stamp (ns : Z).

Record DataFrame : Type := mkDataFrame {
  columns : list string;
  records : list (list cell)
}.

(** [Series.unique()]: the distinct values in order of first appearance. *)
Fixpoint unique_from {A} `{EqDecision A} (seen l : list A) : list A :=
  match l with
  | [] => []
  | x :: l' =>
      if decide (x ∈ seen) then unique_from seen l'
      else x :: unique_from (x :: seen) l'
  end.

Definition unique {A} `{EqDecision A} (l : list A) : list A :=
  unique_from [] l.

(** [pd.DataFrame(rows)] for a list of dicts: the columns are the keys in
    order of first appearance, and a key a row lacks gives [NaN].  pandas
    then infers a dtype for each column from its values: a column that
    holds nothing but numbers, [None] and lacking values becomes
    [float64] as soon as one value is a float or is lacking, or an int
    comes with a [None]; its ints are converted and its [None]s become
    [NaN].  Every other column keeps its objects: ints alone, booleans,
    strings, lists, dicts, and [None] among them.  JSON integers are taken
    to fit 64 bits, as those of the Web API do. *)
Definition keeps_objects (x : option value) : bool :=
  match x with
  | Some (VBool _ | VStr _ | VList _ | VDict _) => true
  | _ => false
  end.

Definition is_float (x : option value) : bool :=
  match x with
  | Some (VFloat _ _) | None => true
  | _ => false
  end.

Definition is_int (x : option value) : bool :=
  match x with
  | Some (VInt _) => true
  | _ => false
  end.

Definition is_None (x : option value) : bool :=
  match x with
  | Some VNone => true
  | _ => false
  end.

Definition float64_column (vals : list (option value)) : bool :=
  negb (existsb keeps_objects vals)
  && (existsb is_float vals || (existsb is_int vals && existsb is_None vals)).

(** [float(n)] of an int is the float read from the decimal [n]. *)
Definition as_float64 (x : option value) : cell :=
  match x with
  | Some (VInt n) => Obj (VFloat n 0)
  | Some (VFloat m e) => Obj (VFloat m e)
  | _ => NaN
  end.

Definition as_object (x : option value) : cell :=
  match x with
  | Some v => Obj v
  | None => NaN
  end.

(** The cell of the row [d] under the label [c] in the frame of [rows]. *)
Definition row_cell (rows : list dict) (d : dict) (c : string) : cell :=
  if float64_column ((fun d' => dict_get d' c) <$> rows)
  then as_float64 (dict_get d c)
  else as_object (dict_get d c).

Definition keys (d : dict) : list string := fst <$> d.

Definition pd_DataFrame (rows : list dict) : DataFrame :=
  let cols := unique (concat (keys <$> rows)) in
  {| columns := cols;
     records := (fun d => row_cell rows d <$> cols) <$> rows |}.

(** The cell of a row under a column label. *)
Fixpoint frame_cell (cols : list string) (rec : list cell) (c : string) : cell :=
  match cols, rec with
  | c' :: cols', x :: rec' =>
      if decide (c' = c) then x else frame_cell cols' rec' c
  | _, _ => NaN
  end.

(** [df.at[n, c]]: the cell of the row at position [n] under the label
    [c]. *)
Definition cell_at (df : DataFrame) (n : nat) (c : string) : option cell :=
  if decide (c ∈ columns df)
  then (fun rec => frame_cell (columns df) rec c) <$> records df !! n
  else None.

(** [df.name]: attribute access to a column. *)
Definition getattr_column (df : DataFrame) (name : string) : result (list cell) :=
  if decide (name ∈ columns df)
  then Ok ((fun rec => frame_cell (columns df) rec name) <$> records df)
  else Raise (AttributeError name).

(** [df[labels]]: every label has to be a column. *)
Definition missing_labels (df : DataFrame) (labels : list string) : list string :=
  filter (fun c => c ∉ columns df) labels.

Definition getitem_columns (df : DataFrame) (labels : list string) : result DataFrame :=
  match missing_labels df labels with
  | [] =>
      Ok {| columns := labels;
            records := (fun rec => frame_cell (columns df) rec <$> labels)
                         <$> records df |}
  | c :: _ => Raise (KeyError (VStr c))
  end.

Definition cell_track_id (x : cell) : result track_id :=
  match x with
  | Obj v => as_track_id v
  | _ => Raise TypeError
  end.

(** ** HTTP *)

Record request : Type := mkRequest {
  url : string;
  headers : list (string * string);
  params : list (string * string);
  timeout : option Z
}.

(** [content] is the decoded JSON body, [None] when the body is not JSON. *)
Record response : Type := mkResponse {
  status_code : Z;
  content : option value
}.

(** What [requests.get] observes: a response, the deadline passing, or the
    connection failing. *)
Inductive outcome : Type :=
| Responds (r : response)
| TimesOut
| ConnectionFails.

(** ** The world and the monad *)

Record World : Type := mkWorld {
  sent : list request;
  stdout : list string;
  written : list (string * DataFrame)
}.

Definition M (A : Type) : Type := World -> result A * World.

Definition ret {A} (a : A) : M A := fun w => (Ok a, w).

Definition raise {A} (e : exn) : M A := fun w => (Raise e, w).

Definition bind {A B} (m : M A) (f : A -> M B) : M B :=
  fun w =>
    match m w with
    | (Ok a, w') => f a w'
    | (Raise e, w') => (Raise e, w')
    end.

Definition lift {A} (r : result A) : M A := fun w => (r, w).

Declare Scope M_scope.
Delimit Scope M_scope with M.
Notation "x <- m ;; k" := (bind m (fun x => k))
  (at level 200, m at level 99, k at level 200) : M_scope.

(** [try: body except E: handler], [E] given by the exceptions it matches. *)
Definition try_except {A} (body : M A) (matches : exn -> bool) (handler : M A) : M A :=
  fun w =>
    match body w with
    | (Raise e, w') => if matches e then handler w' else (Raise e, w')
    | ok => ok
    end.

Definition is_Timeout (e : exn) : bool :=
  match e with
  | Timeout => true
  | _ => false
  end.

(** The three effects on the world. *)
Definition log_request (w : World) (req : request) : World :=
  {| sent := sent w ++ [req]; stdout := stdout w; written := written w |}.

Definition log_print (w : World) (s : string) : World :=
  {| sent := sent w; stdout := stdout w ++ [s]; written := written w |}.

Definition log_csv (w : World) (path : string) (df : DataFrame) : World :=
  {| sent := sent w; stdout := stdout w; written := written w ++ [(path, df)] |}.

(** [print(s)]. *)
Definition print (s : string) : M unit :=
  fun w => (Ok tt, log_print w s).

(** [df.to_csv(path, index=False)]. *)
Definition to_csv (df : DataFrame) (path : string) : M unit :=
  fun w => (Ok tt, log_csv w path df).

(** [for x in xs: body], the body updating the loop's local state. *)
Fixpoint for_ {A S} (xs : list A) (body : A -> S -> M S) (s : S) : M S :=
  match xs with
  | [] => ret s
  | x :: xs' => (s' <- body x s ;; for_ xs' body s')%M
  end.

(** [response.raise_for_status()]: 4xx and 5xx raise. *)
Definition raise_for_status (r : response) : M unit :=
  if decide (400 <= status_code r < 600) then raise (HTTPError (status_code r))
  else ret tt.

(** [response.json()]. *)
Definition response_json (r : response) : M value :=
  match content r with
  | Some v => ret v
  | None => raise JSONDecodeError
  end.

(** ** Timestamps

    A [datetime64[ns]] column keeps each timestamp as a signed 64-bit count
    of nanoseconds since the epoch; the least 64-bit value is [NaT].  A
    column plus a [DateOffset] of hours is added in that representation:
    [NaT] stays [NaT], and a sum that leaves the 64 bits wraps around
    without an exception. *)

Definition NaT : Z := -9223372036854775808.
Definition Timestamp_min : Z := -9223372036854775807.
Definition Timestamp_max : Z := 9223372036854775807.

(** [pd.offsets.DateOffset(hours=h)] in nanoseconds. *)
Definition DateOffset_hours (h : Z) : Z := h * 3600 * 1000000000.

(** Two's complement: the signed 64-bit value of the low 64 bits of [z]. *)
Definition int64_wrap (z : Z) : Z := (z + 2 ^ 63) mod 2 ^ 64 - 2 ^ 63.

Definition Timestamp_add (t offset : Z) : Z :=
  if decide (t = NaT) then NaT else int64_wrap (t + offset).

(** One object of the streaming-history JSON array. *)
Record history_record : Type := mkRecord {
  endTime : string;
  artistName : string;
  trackName : string
}.

(** Line 143: [row.artistName + ' ' + row.trackName]. *)
Definition query (row : history_record) : string :=
  artistName row +:+ " " +:+ trackName row.

(** The history frame when it is written: the columns of the input followed
    by the two columns [main] adds. *)
Definition history_row (row : history_record) (t : Z) (q : string) (i : track_id)
  : list cell :=
  [Stamp t; Obj (VStr (artistName row)); Obj (VStr (trackName row));
   Obj (VStr q); Obj (of_track_id i)].

Definition history_frame (df : list history_record) (endTime' : list Z)
    (artist_track : list string) (id_ : list track_id) : DataFrame :=
  {| columns := ["endTime"; "artistName"; "trackName"; "artist+track"; "id_"];
     records := zip_with (fun rt qi => history_row rt.1 rt.2 qi.1 qi.2)
                         (zip df endTime') (zip artist_track id_) |}.

(** ** The script *)

Definition get_headers (token : string) : list (string * string) :=
  [("Accept", "application/json");
   ("Content-Type", "application/json");
   ("Authorization", "Bearer " +:+ token)].

Definition search_request (q token : string) : request :=
  {| url := "https://api.spotify.com/v1/search";
     headers := get_headers token;
     params := [("q", q); ("type", "track")];
     timeout := Some 5 |}.

Definition track_request (track_id token : string) : request :=
  {| url := "https://api.spotify.com/v1/tracks/" +:+ track_id;
     headers := get_headers token;
     params := [];
     timeout := None |}.

Definition features_request (track_id token : string) : request :=
  {| url := "https://api.spotify.com/v1/audio-features/" +:+ track_id;
     headers := get_headers token;
     params := [];
     timeout := Some 5 |}.

Definition keep_features : list string :=
  ["id_"; "danceability"; "energy"; "key"; "loudness"; "mode"; "speechiness";
   "acousticness"; "instrumentalness"; "liveness"; "valence"; "tempo";
   "time_signature"].

(** The dict display of [get_track_data], its entries evaluated in order. *)
Definition selected_data (track_data : value) : result dict :=
  let album k := (a <- getitem track_data "album" ;; getitem a k)%res in
  let artist i k :=
    (l <- getitem track_data "artists" ;; a <- getindex l i ;; getitem a k)%res in
  let artist2 k :=
    (l <- getitem track_data "artists" ;;
     n <- py_len l ;;
     if decide (n < 2)%nat then Ok VNone else artist 1%nat k)%res in
  (album_type <- album "type" ;;
   album_id <- album "id" ;;
   album_name <- album "name" ;;
   album_release_date <- album "release_date" ;;
   artist1_id <- artist 0%nat "id" ;;
   artist1_name <- artist 0%nat "name" ;;
   artist1_type <- artist 0%nat "type" ;;
   artist2_id <- artist2 "id" ;;
   artist2_name <- artist2 "name" ;;
   artist2_type <- artist2 "type" ;;
   duration_ms <- getitem track_data "duration_ms" ;;
   is_local <- getitem track_data "is_local" ;;
   name <- getitem track_data "name" ;;
   popularity <- getitem track_data "popularity" ;;
   type <- getitem track_data "type" ;;
   Ok [("album_type", album_type);
       ("album_id", album_id);
       ("album_name", album_name);
       ("album_release_date", album_release_date);
       ("artist1_id", artist1_id);
       ("artist1_name", artist1_name);
       ("artist1_type", artist1_type);
       ("artist2_id", artist2_id);
       ("artist2_name", artist2_name);
       ("artist2_type", artist2_type);
       ("duration_ms", duration_ms);
       ("is_local", is_local);
       ("name", name);
       ("popularity", popularity);
       ("type", type)])%res.

Section Script.

(** The Web API: what the next [requests.get] observes, given the requests
    sent before it. *)
Variable upstream : list request -> request -> outcome.

(** [pd.Timestamp(s)] as nanoseconds since the epoch ([NaT] for a string
    pandas reads as a missing time), [None] when pandas cannot parse [s]. *)
Variable pd_Timestamp : string -> option Z.

(** [requests.get(url, headers=.., params=.., timeout=..)]. *)
Definition requests_get (req : request) : M response :=
  fun w =>
    let w' := log_request w req in
    match upstream (sent w) req with
    | Responds r => (Ok r, w')
    | TimesOut => (Raise Timeout, w')
    | ConnectionFails => (Raise ConnectionError, w')
    end.

Definition get_id (q token : string) : M value :=
  try_except
    (response <- requests_get (search_request q token) ;;
     _ <- raise_for_status response ;;
     json <- response_json response ;;
     n <- lift (tracks <- getitem json "tracks" ;;
                items <- getitem tracks "items" ;;
                py_len items)%res ;;
     if decide (n = 0%nat) then
       _ <- print q ;;
       ret VNone
     else
       first_result <- lift (tracks <- getitem json "tracks" ;;
                             items <- getitem tracks "items" ;;
                             getindex items 0)%res ;;
       track_id <- lift (getitem first_result "id") ;;
       ret track_id)%M
    is_Timeout
    (ret VNone).

Definition get_track_data (track_id token : string) : M dict :=
  (response <- requests_get (track_request track_id token) ;;
   _ <- raise_for_status response ;;
   track_data <- response_json response ;;
   lift (selected_data track_data))%M.

Definition get_track_audio_features (track_id token : string) : M value :=
  (response <- requests_get (features_request track_id token) ;;
   if decide (status_code response = 503) then ret VNone
   else
     _ <- raise_for_status response ;;
     features <- response_json response ;;
     ret features)%M.

(** Line 121: [df.endTime.apply(pd.Timestamp) + DateOffset(hours=3)].  The
    frame of an empty JSON array has no columns at all; parsing can raise,
    the addition cannot. *)
Definition shifted_endTime (df : list history_record) : result (list Z) :=
  match df with
  | [] => Raise (AttributeError "endTime")
  | _ =>
      (stamps <- mapM (fun s => match pd_Timestamp s with
                                | Some t => Ok t
                                | None => Raise ValueError
                                end) (endTime <$> df) ;;
       Ok ((fun t => Timestamp_add t (DateOffset_hours 3)) <$> stamps))%res
  end.

(** Line 146: the dict comprehension over the unique queries. *)
Definition id_map_entry (token : string) (artist_track : string)
    (id_map : gmap string track_id) : M (gmap string track_id) :=
  (found <- get_id artist_track token ;;
   i <- lift (as_track_id found) ;;
   ret (<[artist_track := i]> id_map))%M.

(** Line 149: [id_map[row['artist+track']]]. *)
Definition id_map_lookup (id_map : gmap string track_id) (q : string)
  : result track_id :=
  match id_map !! q with
  | Some i => Ok i
  | None => Raise (KeyError (VStr q))
  end.

(** Lines 152-157: the body of the metadata loop. *)
Definition tracks_data_step (token : string) (id_ : track_id)
    (tracks_data : list dict) : M (list dict) :=
  match id_ with
  | None => ret tracks_data
  | Some i =>
      (data <- get_track_data i token ;;
       let data := dict_set data "id_" (VStr i) in
       ret (tracks_data ++ [data]))%M
  end.

(** Lines 163-170: the body of the audio-feature loop. *)
Definition tracks_features_data_step (token : string) (id_ : track_id)
    (tracks_features_data : list dict) : M (list dict) :=
  match id_ with
  | None => ret tracks_features_data
  | Some i =>
      (data <- get_track_audio_features i token ;;
       match data with
       | VNone => ret tracks_features_data
       | _ =>
           data <- lift (setitem data "id_" (VStr i)) ;;
           ret (tracks_features_data ++ [data])
       end)%M
  end.

(** Lines 143-149: the queries, the mapping of the unique queries to ids,
    and the id of every row. *)
Definition resolve_ids (df : list history_record) (token : string)
  : M (list string * list track_id) :=
  (let artist_track := query <$> df in
   let unique_tracks := unique artist_track in
   id_map <- for_ unique_tracks (id_map_entry token) ∅ ;;
   id_ <- lift (mapM (id_map_lookup id_map) artist_track) ;;
   ret (artist_track, id_))%M.

(** Lines 151-157. *)
Definition collect_tracks_data (token : string) (id_ : list track_id)
  : M (list dict) :=
  for_ (unique id_) (tracks_data_step token) [].

(** Lines 162-170, over [tracks_df.id_.unique()]. *)
Definition collect_tracks_features_data (token : string) (tracks_df : DataFrame)
  : M (list dict) :=
  (ids <- lift (column <- getattr_column tracks_df "id_" ;;
                mapM cell_track_id column)%res ;;
   for_ (unique ids) (tracks_features_data_step token) [])%M.

(** [main], from the loaded history and the access token on. *)
Definition main (streaming_history : list history_record) (token : string)
  : M unit :=
  (let df := streaming_history in
   endTime' <- lift (shifted_endTime df) ;;
   resolved <- resolve_ids df token ;;
   let artist_track := resolved.1 in
   let id_ := resolved.2 in
   tracks_data <- collect_tracks_data token id_ ;;
   let tracks_df := pd_DataFrame tracks_data in
   _ <- to_csv tracks_df "data/tracks.csv" ;;
   tracks_features_data <- collect_tracks_features_data token tracks_df ;;
   features_df <-
     lift (getitem_columns (pd_DataFrame tracks_features_data) keep_features) ;;
   _ <- to_csv features_df "data/features.csv" ;;
   to_csv (history_frame df endTime' artist_track id_)
          "data/streaming_history.csv")%M.

(** The six ways a run of [main] ends: at line 121, in one of the three
    fetch stages, at the projection of line 178, or with all three files
    written. *)
Inductive main_run (history : list history_record) (token : string) (w : World)
  : result unit -> World -> Prop :=
| run_load_raises e :
    shifted_endTime history = Raise e ->
    main_run history token w (Raise e) w
| run_resolve_raises endTime' e w' :
    shifted_endTime history = Ok endTime' ->
    resolve_ids history token w = (Raise e, w') ->
    main_run history token w (Raise e) w'
| run_tracks_raises endTime' qs id_ w1 e w' :
    shifted_endTime history = Ok endTime' ->
    resolve_ids history token w = (Ok (qs, id_), w1) ->
    collect_tracks_data token id_ w1 = (Raise e, w') ->
    main_run history token w (Raise e) w'
| run_features_raises endTime' qs id_ w1 tracks_data w2 e w' :
    shifted_endTime history = Ok endTime' ->
    resolve_ids history token w = (Ok (qs, id_), w1) ->
    collect_tracks_data token id_ w1 = (Ok tracks_data, w2) ->
    collect_tracks_features_data token (pd_DataFrame tracks_data)
      (log_csv w2 "data/tracks.csv" (pd_DataFrame tracks_data)) = (Raise e, w') ->
    main_run history token w (Raise e) w'
| run_projection_raises endTime' qs id_ w1 tracks_data w2 rows w3 e :
    shifted_endTime history = Ok endTime' ->
    resolve_ids history token w = (Ok (qs, id_), w1) ->
    collect_tracks_data token id_ w1 = (Ok tracks_data, w2) ->
    collect_tracks_features_data token (pd_DataFrame tracks_data)
      (log_csv w2 "data/tracks.csv" (pd_DataFrame tracks_data)) = (Ok rows, w3) ->
    getitem_columns (pd_DataFrame rows) keep_features = Raise e ->
    main_run history token w (Raise e) w3
| run_completes endTime' qs id_ w1 tracks_data w2 rows w3 features_df :
    shifted_endTime history = Ok endTime' ->
    resolve_ids history token w = (Ok (qs, id_), w1) ->
    collect_tracks_data token id_ w1 = (Ok tracks_data, w2) ->
    collect_tracks_features_data token (pd_DataFrame tracks_data)
      (log_csv w2 "data/tracks.csv" (pd_DataFrame tracks_data)) = (Ok rows, w3) ->
    getitem_columns (pd_DataFrame rows) keep_features = Ok features_df ->
    main_run history token w (Ok tt)
      (log_csv (log_csv w3 "data/features.csv" features_df)
               "data/streaming_history.csv"
               (history_frame history endTime' qs id_)).

End Script.

(** ** Counting calls *)

#[global] Instance request_eq_dec : EqDecision request.
Proof. solve_decision. Defined.

(** How often [req] occurs in a log of requests. *)
Definition calls (req : request) (log : list request) : nat :=
  length (filter (fun r => r = req) log).

(** The non-absent ids of a list, in order. *)
Definition present (ids : list track_id) : list string := omap id ids.

(** ** A catalog to run the script on

    A small upstream with two tracks, and the timestamp format of the
    streaming-history export ([YYYY-MM-DD HH:MM]).  [fault] overrides the
    answer to chosen requests. *)

Definition days_from_civil (y m d : Z) : Z :=
  let y' := if decide (m <= 2) then y - 1 else y in
  let era := y' / 400 in
  let yoe := y' - era * 400 in
  let mp := (m + 9) mod 12 in
  let doy := (153 * mp + 2) / 5 + d - 1 in
  let doe := yoe * 365 + yoe / 4 - yoe / 100 + doy in
  era * 146097 + doe - 719468.

Definition digits (cs : list ascii) : option Z :=
  foldl (fun acc c =>
           match acc with
           | Some n =>
               let k := Z.of_nat (nat_of_ascii c) in
               if decide (48 <= k <= 57) then Some (10 * n + (k - 48)) else None
           | None => None
           end) (Some 0) cs.

Definition export_Timestamp (s : string) : option Z :=
  match list_ascii_of_string s with
  | [y1; y2; y3; y4; "-"; m1; m2; "-"; d1; d2; " "; h1; h2; ":"; n1; n2]%char =>
      match digits [y1; y2; y3; y4], digits [m1; m2], digits [d1; d2],
            digits [h1; h2], digits [n1; n2] with
      | Some y, Some m, Some d, Some h, Some n =>
          if decide (1 <= m <= 12 /\ 1 <= d <= 31 /\ h < 24 /\ n < 60)
          then Some ((((days_from_civil y m d * 24 + h) * 60 + n) * 60) * 1000000000)
          else None
      | _, _, _, _, _ => None
      end
  | _ => None
  end.

Definition mock_track : value :=
  VDict [("album", VDict [("type", VStr "album"); ("id", VStr "AL1");
                          ("name", VStr "Album One");
                          ("release_date", VStr "2019-05-17")]);
         ("artists", VList [VDict [("id", VStr "A1"); ("name", VStr "Artist One");
                                   ("type", VStr "artist")]]);
         ("duration_ms", VInt 210000);
         ("is_local", VBool false);
         ("name", VStr "Song");
         ("popularity", VInt 42);
         ("type", VStr "track")].

Definition mock_duet : value :=
  VDict [("album", VDict [("type", VStr "single"); ("id", VStr "AL2");
                          ("name", VStr "Tune");
                          ("release_date", VStr "2020")]);
         ("artists", VList [VDict [("id", VStr "A2"); ("name", VStr "Artist Two");
                                   ("type", VStr "artist")];
                            VDict [("id", VStr "A3"); ("name", VStr "Guest");
                                   ("type", VStr "artist")]]);
         ("duration_ms", VInt 185000);
         ("is_local", VBool false);
         ("name", VStr "Tune");
         ("popularity", VInt 7);
         ("type", VStr "track")].

Definition mock_features (i : string) : value :=
  VDict [("danceability", VFloat 735 (-3)); ("energy", VFloat 578 (-3));
         ("key", VInt 5); ("loudness", VFloat (-11840) (-3)); ("mode", VInt 0);
         ("speechiness", VFloat 461 (-4)); ("acousticness", VFloat 514 (-3));
         ("instrumentalness", VFloat 902 (-4)); ("liveness", VFloat 159 (-3));
         ("valence", VFloat 624 (-3)); ("tempo", VFloat 98002 (-3));
         ("type", VStr "audio_features"); ("id", VStr i);
         ("duration_ms", VInt 210000); ("time_signature", VInt 4)].

Definition mock_search (q : string) : value :=
  let items :=
    if decide (q = "Artist One Song") then [VDict [("id", VStr "abc123")]]
    else if decide (q = "Artist Two Tune")
         then [VDict [("id", VStr "def456")]; VDict [("id", VStr "zzz999")]]
         else [] in
  VDict [("tracks", VDict [("items", VList items)])].

Definition mock_answer (req : request) : outcome :=
  let tracks := "https://api.spotify.com/v1/tracks/" in
  let features := "https://api.spotify.com/v1/audio-features/" in
  let rest (p : string) :=
    substring (String.length p) (String.length (url req) - String.length p)%nat (url req) in
  if decide (url req = "https://api.spotify.com/v1/search") then
    match params req with
    | ("q", q) :: _ => Responds {| status_code := 200; content := Some (mock_search q) |}
    | _ => Responds {| status_code := 400; content := None |}
    end
  else if String.prefix tracks (url req) then
    Responds {| status_code := 200;
                content := Some (if decide (rest tracks = "def456")
                                 then mock_duet else mock_track) |}
  else if String.prefix features (url req) then
    Responds {| status_code := 200; content := Some (mock_features (rest features)) |}
  else Responds {| status_code := 404; content := None |}.

Definition mock_upstream (fault : request -> option outcome)
  : list request -> request -> outcome :=
  fun _ req =>
    match fault req with
    | Some o => o
    | None => mock_answer req
    end.

Definition no_fault (req : request) : option outcome := None.

(** The answer [o] to the audio-feature request for [i], whoever asks. *)
Definition features_fault (i : string) (o : outcome) (req : request) : option outcome :=
  if decide (url req = "https://api.spotify.com/v1/audio-features/" +:+ i)
  then Some o else None.

(** The answer [o] to every audio-feature request. *)
Definition every_features_fault (o : outcome) (req : request) : option outcome :=
  if String.prefix "https://api.spotify.com/v1/audio-features/" (url req)
  then Some o else None.

(** The answer [o] to every search. *)
Definition search_fault (o : outcome) (req : request) : option outcome :=
  if decide (url req = "https://api.spotify.com/v1/search") then Some o else None.

Definition mock_history : list history_record :=
  [ {| endTime := "2021-03-01 22:30"; artistName := "Artist One"; trackName := "Song" |};
    {| endTime := "2021-03-01 22:34"; artistName := "Nonexistent Artist";
       trackName := "Nosong" |};
    {| endTime := "2021-03-02 08:15"; artistName := "Artist One"; trackName := "Song" |};
    {| endTime := "2021-03-02 08:19"; artistName := "Artist Two"; trackName := "Tune" |} ].

(** A record played within three hours of the greatest [Timestamp],
    2262-04-11 23:47:16.854775807. *)
Definition late_history : list history_record :=
  [ {| endTime := "2262-04-11 22:00"; artistName := "Artist One"; trackName := "Song" |} ].

Definition world0 : World := {| sent := []; stdout := []; written := [] |}.

Definition mock_main (fault : request -> option outcome) (history : list history_record)
  : result unit * World :=
  main (mock_upstream fault) export_Timestamp history "token" world0.

Definition unavailable : outcome :=
  Responds {| status_code := 503; content := None |}.

Definition server_error : outcome :=
  Responds {| status_code := 500; content := None |}.

(** * Properties *)

(** ** [unique] *)

Section Unique.
Context {A : Type} `{EqDecision A}.

Lemma elem_of_unique_from (seen l : list A) (x : A) :
  x ∈ unique_from seen l <-> x ∈ l /\ x ∉ seen.
Proof.
  revert seen. induction l as [|y l IH]; intros seen; simpl.
  - split; [intros H; inversion H | intros [H _]; inversion H].
  - case_decide as Hy.
    + rewrite IH, elem_of_cons. split; [tauto|].
      intros [[->|Hx] Hs]; [done | tauto].
    + rewrite !elem_of_cons, IH, elem_of_cons. split.
      * intros [->|(Hx & Hs)]; [tauto|]. split; [tauto|]. tauto.
      * intros [[->|Hx] Hs]; [tauto|].
        destruct (decide (x = y)) as [->|Hne]; [tauto|]. right. tauto.
Qed.

Lemma NoDup_unique_from (seen l : list A) : NoDup (unique_from seen l).
Proof.
  revert seen. induction l as [|y l IH]; intros seen; simpl.
  - constructor.
  - case_decide; [apply IH|].
    constructor; [|apply IH].
    rewrite elem_of_unique_from, elem_of_cons. tauto.
Qed.

Lemma elem_of_unique (l : list A) (x : A) : x ∈ unique l <-> x ∈ l.
Proof.
  unfold unique. rewrite elem_of_unique_from. split; [tauto|].
  intros Hx. split; [done|]. apply not_elem_of_nil.
Qed.

Lemma NoDup_unique (l : list A) : NoDup (unique l).
Proof. apply NoDup_unique_from. Qed.

End Unique.

(** ** The monad *)

Lemma bind_inv {A B} (m : M A) (f : A -> M B) w r w' :
  bind m f w = (r, w') ->
  (exists e, m w = (Raise e, w') /\ r = Raise e) \/
  (exists a w1, m w = (Ok a, w1) /\ f a w1 = (r, w')).
Proof.
  unfold bind. destruct (m w) as [[a|e] w1]; intros H.
  - right. eauto.
  - left. exists e. by simplify_eq.
Qed.

Lemma bind_Ok {A B} (m : M A) (f : A -> M B) w a w1 :
  m w = (Ok a, w1) -> bind m f w = f a w1.
Proof. unfold bind. by intros ->. Qed.

Lemma bind_Raise {A B} (m : M A) (f : A -> M B) w e w1 :
  m w = (Raise e, w1) -> bind m f w = (Raise e, w1).
Proof. unfold bind. by intros ->. Qed.

Lemma lift_inv {A} (x : result A) w r w' :
  lift x w = (r, w') -> r = x /\ w' = w.
Proof. unfold lift. by intros [= <- <-]. Qed.

Lemma rbind_Ok_inv {A B} (x : result A) (f : A -> result B) b :
  rbind x f = Ok b -> exists a, x = Ok a /\ f a = Ok b.
Proof. destruct x; simpl; [eauto | done]. Qed.

(** Inversion of a run, one sequencing step at a time. *)
Ltac inv_run H :=
  match type of H with
  | bind _ _ _ = _ =>
      let e := fresh "e" in
      let a := fresh "a" in
      let w1 := fresh "w" in
      let H1 := fresh "Hrun" in
      let H2 := fresh "Hrun" in
      apply bind_inv in H as [(e & H1 & H2)|(a & w1 & H1 & H2)]
  | lift _ _ = _ => apply lift_inv in H as [? ?]; subst
  | ret _ _ = _ => unfold ret in H; simplify_eq
  | raise _ _ = _ => unfold raise in H; simplify_eq
  | (_, _) = (_, _) => simplify_eq
  end.

Ltac inv_runs :=
  repeat match goal with
    | H : bind _ _ _ = _ |- _ =>
        apply bind_inv in H as [(? & ? & ?)|(? & ? & ? & ?)]
    | H : lift _ _ = _ |- _ => apply lift_inv in H as [? ?]
    | H : ret _ _ = _ |- _ => unfold ret in H
    | H : raise _ _ = _ |- _ => unfold raise in H
    end;
  simplify_eq.

(** ** The three fetchers *)

Section Fetchers.
Variable upstream : list request -> request -> outcome.

Lemma requests_get_run req w :
  requests_get upstream req w =
    (match upstream (sent w) req with
     | Responds r => Ok r
     | TimesOut => Raise Timeout
     | ConnectionFails => Raise ConnectionError
     end, log_request w req).
Proof. unfold requests_get. by destruct (upstream (sent w) req). Qed.

(** Each fetcher sends its one request, whatever comes of it, and writes no
    file. *)
Lemma get_id_effect q token w r w' :
  get_id upstream q token w = (r, w') ->
  sent w' = sent w ++ [search_request q token] /\ written w' = written w.
Proof.
  unfold get_id, try_except, bind, raise_for_status, response_json, lift, ret,
    raise, print.
  rewrite requests_get_run.
  intros Hrun. repeat case_match; simplify_eq; done.
Qed.

Lemma get_track_data_effect i token w r w' :
  get_track_data upstream i token w = (r, w') ->
  sent w' = sent w ++ [track_request i token] /\ written w' = written w.
Proof.
  unfold get_track_data, bind, raise_for_status, response_json, lift, ret, raise.
  rewrite requests_get_run.
  intros Hrun. repeat case_match; simplify_eq; done.
Qed.

Lemma get_track_audio_features_effect i token w r w' :
  get_track_audio_features upstream i token w = (r, w') ->
  sent w' = sent w ++ [features_request i token] /\ written w' = written w.
Proof.
  unfold get_track_audio_features, bind, raise_for_status, response_json, lift,
    ret, raise.
  rewrite requests_get_run.
  intros Hrun. repeat case_match; simplify_eq; done.
Qed.

(** [get_track_data] returns the projection of the decoded body. *)
Lemma get_track_data_Ok i token w data w' :
  get_track_data upstream i token w = (Ok data, w') ->
  exists r track_data,
    upstream (sent w) (track_request i token) = Responds r /\
    ~ 400 <= status_code r < 600 /\
    content r = Some track_data /\
    selected_data track_data = Ok data.
Proof.
  unfold get_track_data, bind, raise_for_status, response_json, lift, ret, raise.
  rewrite requests_get_run.
  intros Hrun. repeat case_match; simplify_eq. eauto 10.
Qed.

(** A 503 is an absence, checked before [raise_for_status]. *)
Lemma get_track_audio_features_503 i token w r :
  upstream (sent w) (features_request i token) = Responds r ->
  status_code r = 503 ->
  get_track_audio_features upstream i token w =
    (Ok VNone, log_request w (features_request i token)).
Proof.
  intros Hr H503. unfold get_track_audio_features, bind.
  rewrite requests_get_run, Hr. by rewrite decide_True.
Qed.

Lemma get_track_audio_features_HTTPError i token w r :
  upstream (sent w) (features_request i token) = Responds r ->
  400 <= status_code r < 600 ->
  status_code r <> 503 ->
  get_track_audio_features upstream i token w =
    (Raise (HTTPError (status_code r)), log_request w (features_request i token)).
Proof.
  intros Hr Hbad H503. unfold get_track_audio_features, bind, raise_for_status.
  rewrite requests_get_run, Hr. rewrite decide_False by done.
  by rewrite decide_True.
Qed.

(** The deadline passing is not caught in [get_track_audio_features]. *)
Lemma get_track_audio_features_Timeout i token w :
  upstream (sent w) (features_request i token) = TimesOut ->
  get_track_audio_features upstream i token w =
    (Raise Timeout, log_request w (features_request i token)).
Proof.
  intros Hr. unfold get_track_audio_features, bind.
  by rewrite requests_get_run, Hr.
Qed.

Lemma get_id_Timeout q token w :
  upstream (sent w) (search_request q token) = TimesOut ->
  get_id upstream q token w = (Ok VNone, log_request w (search_request q token)).
Proof.
  intros Hr. unfold get_id, try_except, bind.
  by rewrite requests_get_run, Hr.
Qed.

End Fetchers.


(** C5.  With fewer than two artists in the response all three second-artist
    fields of the row are [None]; with two or more they are the id, name and
    type of the second artist. *)
Theorem second_artist_fields upstream track_id token w r track_data artists data w' :
  upstream (sent w) (track_request track_id token) = Responds r ->
  content r = Some track_data ->
  getitem track_data "artists" = Ok (VList artists) ->
  get_track_data upstream track_id token w = (Ok data, w') ->
  ((length artists < 2)%nat ->
   dict_get data "artist2_id" = Some VNone /\
   dict_get data "artist2_name" = Some VNone /\
   dict_get data "artist2_type" = Some VNone) /\
  (forall second,
      artists !! 1%nat = Some second ->
      exists i n t,
        getitem second "id" = Ok i /\
        getitem second "name" = Ok n /\
        getitem second "type" = Ok t /\
        dict_get data "artist2_id" = Some i /\
        dict_get data "artist2_name" = Some n /\
        dict_get data "artist2_type" = Some t).
Proof.
  intros Hr Hbody Hartists Hrun.
  apply get_track_data_Ok in Hrun as (r' & td & Hr' & _ & Hbody' & Hsel).
  rewrite Hr in Hr'. injection Hr' as <-.
  rewrite Hbody in Hbody'. injection Hbody' as <-.
  unfold selected_data in Hsel. rewrite Hartists in Hsel. simpl in Hsel.
  repeat (apply rbind_Ok_inv in Hsel as (? & ? & Hsel)).
  simplify_eq. split.
  - intros Hlen. rewrite !decide_True in * by done. by simplify_eq.
  - intros second Hsecond.
    assert (~ (length artists < 2)%nat) as Hlen.
    { apply lookup_lt_Some in Hsecond. lia. }
    rewrite !decide_False in * by done.
    rewrite Hsecond in *. simpl in *. eauto 10.
Qed.

(** ** Lists, ids and call counts *)

Lemma elem_of_present (ids : list track_id) (i : string) :
  i ∈ present ids <-> Some i ∈ ids.
Proof.
  unfold present. rewrite list_elem_of_omap. split.
  - intros (x & Hx & Hid). unfold id in Hid. by subst.
  - intros Hi. by exists (Some i).
Qed.

Lemma NoDup_present (ids : list track_id) : NoDup ids -> NoDup (present ids).
Proof.
  induction 1 as [|[i|] ids Hnotin Hnodup IH]; simpl.
  - constructor.
  - constructor; [|done]. by rewrite elem_of_present.
  - done.
Qed.

Lemma present_Some (l : list string) : present (Some <$> l) = l.
Proof. induction l as [|x l IH]; simpl; [done | by f_equal]. Qed.

Lemma present_app (l k : list track_id) : present (l ++ k) = present l ++ present k.
Proof. apply omap_app. Qed.

Lemma unique_from_NoDup {A} `{EqDecision A} (seen l : list A) :
  NoDup l -> (forall x, x ∈ l -> x ∉ seen) -> unique_from seen l = l.
Proof.
  intros Hl. revert seen. induction Hl as [|x l Hx Hl IH]; intros seen Hseen; simpl.
  - done.
  - rewrite decide_False by (apply Hseen; left).
    f_equal. apply IH. intros y Hy. rewrite elem_of_cons.
    intros [->|Hin]; [done|]. eapply Hseen; [right|]; done.
Qed.

Lemma unique_NoDup {A} `{EqDecision A} (l : list A) : NoDup l -> unique l = l.
Proof.
  intros Hl. apply unique_from_NoDup; [done|].
  intros x _. apply not_elem_of_nil.
Qed.

Lemma calls_app req l k : calls req (l ++ k) = (calls req l + calls req k)%nat.
Proof. unfold calls. by rewrite filter_app, length_app. Qed.

Lemma calls_not_elem req l : req ∉ l -> calls req l = 0%nat.
Proof.
  unfold calls. induction l as [|x l IH]; [done|].
  rewrite not_elem_of_cons. intros [Hne Hl].
  rewrite filter_cons_False by done. auto.
Qed.

Lemma calls_elem_NoDup req l : NoDup l -> req ∈ l -> calls req l = 1%nat.
Proof.
  unfold calls. induction 1 as [|x l Hx Hl IH]; [by intros ?%not_elem_of_nil|].
  rewrite elem_of_cons. intros [->|Hin].
  - rewrite filter_cons_True by done. simpl. f_equal. by apply calls_not_elem.
  - rewrite filter_cons_False; [auto|]. by intros ->.
Qed.

Lemma prefix_NoDup {A} (l k : list A) : l `prefix_of` k -> NoDup k -> NoDup l.
Proof. intros [k' ->]. by intros [? _]%NoDup_app. Qed.

Lemma mapM_Ok_Forall2 {A B} (f : A -> result B) l l' :
  mapM f l = Ok l' -> Forall2 (fun x y => f x = Ok y) l l'.
Proof.
  revert l'. induction l as [|x l IH]; intros l' Hl; simpl in Hl.
  - simplify_eq. constructor.
  - apply rbind_Ok_inv in Hl as (y & Hy & Hl).
    apply rbind_Ok_inv in Hl as (ys & Hys & Hl). simplify_eq.
    constructor; auto.
Qed.


Lemma track_request_inj token : Inj (=) (=) (fun i => track_request i token).
Proof. intros i1 i2 H. injection H as H. by simplify_eq. Qed.

Lemma features_request_inj token : Inj (=) (=) (fun i => features_request i token).
Proof. intros i1 i2 H. injection H as H. by simplify_eq. Qed.

Lemma search_not_track q i token token' :
  search_request q token <> track_request i token'.
Proof. intros H. by injection H. Qed.

Lemma search_not_features q i token token' :
  search_request q token <> features_request i token'.
Proof. intros H. by injection H. Qed.

Lemma track_not_features i j token token' :
  track_request i token <> features_request j token'.
Proof. intros H. by injection H. Qed.

(** ** Dicts and frames *)

Lemma dict_get_set_eq d k v : dict_get (dict_set d k v) k = Some v.
Proof.
  induction d as [|[k' v'] d IH]; simpl.
  - by rewrite decide_True.
  - case_decide; simpl; [by rewrite decide_True | by rewrite decide_False].
Qed.

Lemma dict_get_Some_keys d k v : dict_get d k = Some v -> k ∈ keys d.
Proof.
  unfold keys. induction d as [|[k' v'] d IH]; simpl; [done|].
  case_decide; [subst; left | right; auto].
Qed.

Lemma frame_cell_fmap (f : string -> cell) cols c :
  c ∈ cols -> frame_cell cols (f <$> cols) c = f c.
Proof.
  induction cols as [|c' cols IH]; [by intros ?%not_elem_of_nil|].
  rewrite elem_of_cons. intros Hc. simpl. case_decide; [by subst|].
  apply IH. by destruct Hc.
Qed.

Lemma elem_of_concat {A} (ls : list (list A)) x :
  x ∈ concat ls <-> exists l, x ∈ l /\ l ∈ ls.
Proof.
  induction ls as [|l ls IH]; simpl.
  - split; [by intros ?%not_elem_of_nil | by intros (? & _ & ?%not_elem_of_nil)].
  - rewrite elem_of_app, IH. split.
    + intros [Hx|(k & Hx & Hk)]; [exists l | exists k]; split; auto; by constructor.
    + intros (k & Hx & [->|Hk]%elem_of_cons); [by left | right; eauto].
Qed.

Lemma elem_of_columns rows c :
  c ∈ columns (pd_DataFrame rows) <-> exists d, d ∈ rows /\ c ∈ keys d.
Proof.
  simpl. rewrite elem_of_unique, elem_of_concat. split.
  - intros (ks & Hc & (d & -> & Hd)%list_elem_of_fmap). eauto.
  - intros (d & Hd & Hc). exists (keys d). split; [done|].
    by apply list_elem_of_fmap_2.
Qed.

(** A column that holds a string, a list, a dict or a boolean keeps its
    objects. *)
Lemma float64_column_objects vals x :
  x ∈ vals -> keeps_objects x = true -> float64_column vals = false.
Proof.
  intros Hx Hk. unfold float64_column.
  replace (existsb keeps_objects vals) with true; [done|].
  symmetry. apply existsb_exists. exists x. split; [|done].
  by apply list_elem_of_In.
Qed.

Lemma row_cell_str rows d c s :
  d ∈ rows -> dict_get d c = Some (VStr s) -> row_cell rows d c = Obj (VStr s).
Proof.
  intros Hd Hc. unfold row_cell.
  rewrite (float64_column_objects _ (Some (VStr s))); [by rewrite Hc| |done].
  rewrite <- Hc. by apply (list_elem_of_fmap_2 (fun d' => dict_get d' c)).
Qed.

Lemma float64_column_numbers vals x :
  float64_column vals = true -> x ∈ vals -> keeps_objects x = false.
Proof.
  intros Hfloat Hx. destruct (keeps_objects x) eqn:Hk; [|done].
  by rewrite (float64_column_objects vals x Hx Hk) in Hfloat.
Qed.

(** A column of strings. *)
Lemma str_column_cells (rows : list dict) (c : string) (ids : list string) :
  (fun d => dict_get d c) <$> rows = (fun i => Some (VStr i)) <$> ids ->
  (fun d => row_cell rows d c) <$> rows = (fun i => Obj (VStr i)) <$> ids.
Proof.
  intros Hids. destruct ids as [|i ids].
  { by apply fmap_nil_inv in Hids as ->. }
  assert (float64_column ((fun d => dict_get d c) <$> rows) = false) as Hobj.
  { rewrite Hids, fmap_cons.
    apply (float64_column_objects _ (Some (VStr i))); [left|done]. }
  transitivity (as_object <$> ((fun d => dict_get d c) <$> rows)).
  - rewrite <- list_fmap_compose. apply list_fmap_ext. intros _ d _. simpl.
    unfold row_cell. by rewrite Hobj.
  - rewrite Hids. by rewrite <- list_fmap_compose.
Qed.

Lemma getattr_column_pd rows c :
  c ∈ columns (pd_DataFrame rows) ->
  getattr_column (pd_DataFrame rows) c = Ok ((fun d => row_cell rows d c) <$> rows).
Proof.
  intros Hc. unfold getattr_column. rewrite decide_True by done.
  f_equal. simpl. rewrite <- list_fmap_compose. apply list_fmap_ext.
  intros _ d _. simpl. by apply (frame_cell_fmap (row_cell rows d)).
Qed.

Lemma cell_at_pd rows n c x :
  cell_at (pd_DataFrame rows) n c = Some x <->
  exists d, rows !! n = Some d /\ c ∈ columns (pd_DataFrame rows) /\
            x = row_cell rows d c.
Proof.
  unfold cell_at.
  change (records (pd_DataFrame rows))
    with ((fun d => row_cell rows d <$> columns (pd_DataFrame rows)) <$> rows).
  rewrite list_lookup_fmap. split.
  - case_decide as Hc; [|done].
    destruct (rows !! n) as [d|]; [|done]. intros [= <-].
    exists d. split; [done|]. split; [done|].
    cbn [fmap option_fmap option_map]. by apply (frame_cell_fmap (row_cell rows d)).
  - intros (d & -> & Hc & ->). rewrite decide_True by done.
    cbn [fmap option_fmap option_map]. f_equal.
    by apply (frame_cell_fmap (row_cell rows d)).
Qed.

Lemma getattr_column_empty c :
  getattr_column (pd_DataFrame []) c = Raise (AttributeError c).
Proof.
  unfold getattr_column. rewrite decide_False; [done|]. apply not_elem_of_nil.
Qed.

Lemma missing_labels_nil df labels c :
  missing_labels df labels = [] -> c ∈ labels -> c ∈ columns df.
Proof.
  unfold missing_labels. intros Hnil Hc.
  destruct (decide (c ∈ columns df)) as [|Hno]; [done|].
  by destruct (filter_nil_not_elem_of _ _ c Hnil Hno).
Qed.

Lemma getitem_columns_pd rows labels df :
  getitem_columns (pd_DataFrame rows) labels = Ok df ->
  df = {| columns := labels;
          records := (fun d => row_cell rows d <$> labels) <$> rows |}.
Proof.
  unfold getitem_columns. destruct (missing_labels _ _) eqn:Hmiss; [|done].
  intros [= <-]. f_equal.
  change (records (pd_DataFrame rows))
    with ((fun d => row_cell rows d <$> columns (pd_DataFrame rows)) <$> rows).
  rewrite <- list_fmap_compose. apply list_fmap_ext.
  intros _ d _. simpl. apply list_fmap_ext. intros i c Hc.
  apply (frame_cell_fmap (row_cell rows d)).
  eapply (missing_labels_nil (pd_DataFrame rows)); [done|].
  by eapply list_elem_of_lookup_2.
Qed.

Lemma getitem_columns_empty :
  getitem_columns (pd_DataFrame []) keep_features = Raise (KeyError (VStr "id_")).
Proof. reflexivity. Qed.

(** ** The stages of [main] *)

(** A loop whose body sends [reqs x] for the element [x], whatever comes of
    it, has sent the requests of the elements it got to; and an exception of
    the body is the exception of the loop. *)
Lemma for_effect {A S} (body : A -> S -> M S) (reqs : A -> list request) :
  (forall x s w r w', body x s w = (r, w') ->
      sent w' = sent w ++ reqs x /\ written w' = written w) ->
  forall xs s w r w',
    for_ xs body s w = (r, w') ->
    exists done,
      done `prefix_of` xs /\
      sent w' = sent w ++ concat (reqs <$> done) /\
      written w' = written w /\
      (forall s', r = Ok s' -> done = xs) /\
      (forall x, x ∈ done ->
         exists s1 w1 r1 w2,
           body x s1 w1 = (r1, w2) /\ forall e, r1 = Raise e -> r = Raise e).
Proof.
  intros Hbody xs. induction xs as [|x xs IH]; intros s w r w' Hrun; simpl in Hrun.
  - inv_run Hrun. exists []. rewrite app_nil_r.
    repeat split; try done. by intros x ?%not_elem_of_nil.
  - apply bind_inv in Hrun as [(e & Hx & ->)|(s1 & w1 & Hx & Hrun)].
    + pose proof (Hbody _ _ _ _ _ Hx) as [Hsent Hwritten]. exists [x].
      split; [apply prefix_cons, prefix_nil|]. simpl. rewrite app_nil_r.
      repeat split; try done.
      intros y ->%list_elem_of_singleton. by exists s, w, (Raise e), w'.
    + pose proof (Hbody _ _ _ _ _ Hx) as [Hsent Hwritten].
      apply IH in Hrun as (done & Hdone & Hsent' & Hwritten' & Hall & Hbodies).
      exists (x :: done). split; [by apply prefix_cons|].
      split; [|split; [|split]].
      * rewrite Hsent', Hsent. simpl. by rewrite app_assoc.
      * congruence.
      * intros s' ->. f_equal. eauto.
      * intros y [->|Hy]%elem_of_cons; [|by apply Hbodies].
        by exists s, w, (Ok s1), w1.
Qed.

Lemma concat_singletons {A B} (f : A -> B) (l : list A) :
  concat ((fun x => [f x]) <$> l) = f <$> l.
Proof. induction l as [|x l IH]; simpl; [done | by f_equal]. Qed.

Lemma concat_present {B} (f : string -> B) (ids : list track_id) :
  concat ((fun o : track_id => match o with Some i => [f i] | None => [] end) <$> ids)
  = f <$> present ids.
Proof. induction ids as [|[i|] ids IH]; simpl; [done | by f_equal | done]. Qed.

Lemma prefix_present (l k : list track_id) :
  l `prefix_of` k -> present l `prefix_of` present k.
Proof. intros [k' ->]. rewrite present_app. by eexists. Qed.

Section Stages.
Variable upstream : list request -> request -> outcome.
Variable pd_Timestamp : string -> option Z.

Lemma id_map_entry_effect token q id_map w r w' :
  id_map_entry upstream token q id_map w = (r, w') ->
  sent w' = sent w ++ [search_request q token] /\ written w' = written w.
Proof.
  unfold id_map_entry. intros Hrun.
  inv_runs; by match goal with H : get_id _ _ _ _ = _ |- _ =>
                 apply get_id_effect in H end.
Qed.

Lemma tracks_data_step_effect token id_ tracks_data w r w' :
  tracks_data_step upstream token id_ tracks_data w = (r, w') ->
  sent w' = sent w ++ match id_ with
                      | Some i => [track_request i token]
                      | None => []
                      end /\
  written w' = written w.
Proof.
  destruct id_ as [i|]; simpl; intros Hrun.
  - inv_runs; by match goal with H : get_track_data _ _ _ _ = _ |- _ =>
                   apply get_track_data_effect in H end.
  - inv_runs. by rewrite app_nil_r.
Qed.

Lemma tracks_features_data_step_effect token id_ rows w r w' :
  tracks_features_data_step upstream token id_ rows w = (r, w') ->
  sent w' = sent w ++ match id_ with
                      | Some i => [features_request i token]
                      | None => []
                      end /\
  written w' = written w.
Proof.
  destruct id_ as [i|]; simpl; intros Hrun.
  - apply bind_inv in Hrun as [(e & Hfetch & _)|(data & w1 & Hfetch & Hrun)];
      apply get_track_audio_features_effect in Hfetch; [done|].
    destruct data; by inv_runs.
  - inv_runs. by rewrite app_nil_r.
Qed.

(** Resolution: one search per unique query, as far as the loop got. *)
Lemma resolve_ids_effect df token w r w' :
  resolve_ids upstream df token w = (r, w') ->
  exists done,
    done `prefix_of` unique (query <$> df) /\
    sent w' = sent w ++ ((fun q => search_request q token) <$> done) /\
    written w' = written w /\
    (forall x, r = Ok x -> done = unique (query <$> df)).
Proof.
  unfold resolve_ids. intros Hrun. inv_run Hrun.
  - eapply for_effect in Hrun0 as (done & Hdone & Hsent & Hwritten & _ & _);
      [|apply id_map_entry_effect].
    exists done. rewrite concat_singletons in Hsent. by simplify_eq.
  - eapply for_effect in Hrun0 as (done & Hdone & Hsent & Hwritten & Hall & _);
      [|apply id_map_entry_effect].
    rewrite concat_singletons in Hsent. specialize (Hall _ eq_refl). subst done.
    exists (unique (query <$> df)). by inv_runs.
Qed.

Lemma resolve_ids_Ok df token w qs id_ w1 :
  resolve_ids upstream df token w = (Ok (qs, id_), w1) ->
  qs = query <$> df /\
  exists id_map : gmap string track_id,
    for_ (unique qs) (id_map_entry upstream token) ∅ w = (Ok id_map, w1) /\
    Forall2 (fun q i => id_map !! q = Some i) qs id_.
Proof.
  unfold resolve_ids. intros Hrun.
  apply bind_inv in Hrun as [(e & _ & ?)|(id_map & w2 & Hloop & Hrun)]; [done|].
  apply bind_inv in Hrun as [(e & _ & ?)|(ids & w3 & Hlookup & Hrun)]; [done|].
  apply lift_inv in Hlookup as [Hlookup ->]. inv_run Hrun.
  split; [done|]. exists id_map. split; [done|].
  symmetry in Hlookup. apply mapM_Ok_Forall2 in Hlookup.
  eapply Forall2_impl; [done|]. intros q i. unfold id_map_lookup.
  by destruct (id_map !! q); intros [= ->].
Qed.

(** Metadata: one request per non-absent id, as far as the loop got, and a
    row per id. *)
Lemma collect_tracks_data_effect token id_ w r w' :
  collect_tracks_data upstream token id_ w = (r, w') ->
  exists done,
    done `prefix_of` present (unique id_) /\
    sent w' = sent w ++ ((fun i => track_request i token) <$> done) /\
    written w' = written w /\
    (forall x, r = Ok x -> done = present (unique id_)).
Proof.
  unfold collect_tracks_data. intros Hrun.
  eapply for_effect in Hrun as (done & Hdone & Hsent & Hwritten & Hall & _);
    [|apply tracks_data_step_effect].
  rewrite concat_present in Hsent. exists (present done).
  split; [by apply prefix_present|]. split; [done|]. split; [done|].
  intros x Hx. by rewrite (Hall _ Hx).
Qed.

Lemma for_tracks_data_ids token ids tracks_data w tracks_data' w' :
  for_ ids (tracks_data_step upstream token) tracks_data w = (Ok tracks_data', w') ->
  (fun d => dict_get d "id_") <$> tracks_data'
  = ((fun d => dict_get d "id_") <$> tracks_data)
      ++ ((fun i => Some (VStr i)) <$> present ids).
Proof.
  revert tracks_data w. induction ids as [|[i|] ids IH]; intros tracks_data w Hrun;
    simpl in Hrun.
  - inv_run Hrun. by rewrite app_nil_r.
  - apply bind_inv in Hrun as [(e & _ & ?)|(rows & w1 & Hstep & Hrun)]; [done|].
    apply IH in Hrun. inv_runs. rewrite Hrun, fmap_app. simpl.
    rewrite dict_get_set_eq. by rewrite <- app_assoc.
  - apply bind_inv in Hrun as [(e & _ & ?)|(rows & w1 & Hstep & Hrun)]; [done|].
    apply IH in Hrun. by inv_runs.
Qed.

Lemma collect_tracks_data_Ok token id_ w tracks_data w' :
  collect_tracks_data upstream token id_ w = (Ok tracks_data, w') ->
  (fun d => dict_get d "id_") <$> tracks_data
  = (fun i => Some (VStr i)) <$> present (unique id_).
Proof. intros Hrun. by apply for_tracks_data_ids in Hrun. Qed.

(** The [id_] column of the metadata frame. *)
Lemma tracks_df_cells (tracks_data : list dict) (ids : list string) :
  (fun d => dict_get d "id_") <$> tracks_data = (fun i => Some (VStr i)) <$> ids ->
  mapM cell_track_id ((fun d => row_cell tracks_data d "id_") <$> tracks_data)
  = Ok (Some <$> ids).
Proof.
  intros Hids. rewrite (str_column_cells _ _ _ Hids). clear Hids.
  induction ids as [|i ids IH]; [done|].
  rewrite !fmap_cons. cbn [mapM cell_track_id as_track_id rbind]. by rewrite IH.
Qed.

Lemma tracks_df_id_column (tracks_data : list dict) (ids : list string) :
  (fun d => dict_get d "id_") <$> tracks_data = (fun i => Some (VStr i)) <$> ids ->
  ids <> [] ->
  getattr_column (pd_DataFrame tracks_data) "id_"
  = Ok ((fun i => Obj (VStr i)) <$> ids).
Proof.
  intros Hids Hne. rewrite getattr_column_pd.
  - f_equal. by apply str_column_cells.
  - apply elem_of_columns.
    destruct tracks_data as [|d tracks_data], ids as [|i ids]; simplify_eq/=.
    exists d. split; [left|]. by eapply dict_get_Some_keys.
Qed.

Lemma tracks_df_column (tracks_data : list dict) (ids : list string) :
  (fun d => dict_get d "id_") <$> tracks_data = (fun i => Some (VStr i)) <$> ids ->
  (column <- getattr_column (pd_DataFrame tracks_data) "id_" ;;
   mapM cell_track_id column)%res
  = match ids with
    | [] => Raise (AttributeError "id_")
    | _ => Ok (Some <$> ids)
    end.
Proof.
  intros Hids. destruct ids as [|i ids].
  - apply fmap_nil_inv in Hids as ->. by rewrite getattr_column_empty.
  - rewrite getattr_column_pd.
    + by apply tracks_df_cells.
    + apply elem_of_columns.
      destruct tracks_data as [|d tracks_data]; simplify_eq/=.
      exists d. split; [left|]. by eapply dict_get_Some_keys.
Qed.

(** Audio features: one request per id of the metadata frame, as far as the
    loop got; a deadline that passes ends the loop. *)
Lemma collect_tracks_features_data_effect token tracks_data ids w r w' :
  (fun d => dict_get d "id_") <$> tracks_data = (fun i => Some (VStr i)) <$> ids ->
  NoDup ids ->
  collect_tracks_features_data upstream token (pd_DataFrame tracks_data) w = (r, w') ->
  exists done,
    done `prefix_of` ids /\
    sent w' = sent w ++ ((fun i => features_request i token) <$> done) /\
    written w' = written w /\
    (forall x, r = Ok x -> done = ids /\ ids <> []) /\
    (forall i, (forall log, upstream log (features_request i token) = TimesOut) ->
               i ∈ done -> r = Raise Timeout).
Proof.
  intros Hids Hnodup. unfold collect_tracks_features_data. intros Hrun.
  apply bind_inv in Hrun as [(e & Hcol & ->)|(col & w1 & Hcol & Hrun)];
    apply lift_inv in Hcol as [Hcol ->]; rewrite (tracks_df_column _ _ Hids) in Hcol.
  - exists []. rewrite app_nil_r. split; [apply prefix_nil|].
    repeat split; try done. by intros i _ ?%not_elem_of_nil.
  - assert (ids <> [] /\ col = Some <$> ids) as [Hne ->].
    { destruct ids; [done|]. by injection Hcol as ->. }
    clear Hcol. rewrite unique_NoDup in Hrun by (by apply (NoDup_fmap_2 Some)).
    eapply for_effect in Hrun as (done & Hdone & Hsent & Hwritten & Hall & Hbodies);
      [|apply tracks_features_data_step_effect].
    rewrite concat_present in Hsent. exists (present done).
    split; [|split; [done|split; [done|split]]].
    + apply prefix_present in Hdone. by rewrite present_Some in Hdone.
    + intros x Hx. rewrite (Hall _ Hx), present_Some. done.
    + intros i Hslow Hi. apply elem_of_present in Hi.
      apply Hbodies in Hi as (s1 & w2 & r1 & w3 & Hstep & Hraise).
      apply Hraise. simpl in Hstep.
      rewrite (bind_Raise _ _ _ _ _ (get_track_audio_features_Timeout
                                       upstream i token w2 (Hslow _))) in Hstep.
      by simplify_eq.
Qed.

(** Every collected row carries the id of a fetch that returned an
    object. *)
Lemma for_features_rows token ids rows w rows' w' :
  for_ ids (tracks_features_data_step upstream token) rows w = (Ok rows', w') ->
  exists new,
    rows' = rows ++ new /\
    Forall (fun d => exists i w1 v w2,
                Some i ∈ ids /\
                get_track_audio_features upstream i token w1 = (Ok v, w2) /\
                v <> VNone /\
                dict_get d "id_" = Some (VStr i)) new.
Proof.
  revert rows w. induction ids as [|[i|] ids IH]; intros rows w Hrun; simpl in Hrun.
  - inv_run Hrun. exists []. by rewrite app_nil_r.
  - apply bind_inv in Hrun as [(e & _ & ?)|(rows1 & w1 & Hstep & Hrun)]; [done|].
    apply IH in Hrun as (new & -> & Hnew).
    assert (Forall (fun d => exists i0 w1 v w2,
                      Some i0 ∈ Some i :: ids /\
                      get_track_audio_features upstream i0 token w1 = (Ok v, w2) /\
                      v <> VNone /\
                      dict_get d "id_" = Some (VStr i0)) new) as Hnew'.
    { eapply Forall_impl; [done|]. intros d (j & wa & v & wb & Hj & H).
      exists j, wa, v, wb. split; [by right | done]. }
    apply bind_inv in Hstep as [(e & _ & ?)|(data & w2 & Hfetch & Hstep)]; [done|].
    destruct data; try (inv_runs; by exists new).
    all: apply bind_inv in Hstep as [(e & _ & ?)|(row & w3 & Hset & Hstep)]; [done|];
      apply lift_inv in Hset as [Hset ->]; inv_run Hstep; simplify_eq/=.
    eexists (_ :: new). rewrite <- app_assoc. split; [done|].
    constructor; [|done].
    eexists i, _, _, _. split; [left|]. split; [eassumption|].
    split; [done|]. apply dict_get_set_eq.
  - apply bind_inv in Hrun as [(e & _ & ?)|(rows1 & w1 & Hstep & Hrun)]; [done|].
    inv_run Hstep. apply IH in Hrun as (new & -> & Hnew). exists new.
    split; [done|]. eapply Forall_impl; [done|].
    intros d (j & wa & v & wb & Hj & H). exists j, wa, v, wb. split; [by right | done].
Qed.

Lemma collect_tracks_features_data_rows token tracks_data ids w rows w' :
  (fun d => dict_get d "id_") <$> tracks_data = (fun i => Some (VStr i)) <$> ids ->
  collect_tracks_features_data upstream token (pd_DataFrame tracks_data) w
    = (Ok rows, w') ->
  Forall (fun d => exists i w1 v w2,
              i ∈ ids /\
              get_track_audio_features upstream i token w1 = (Ok v, w2) /\
              v <> VNone /\
              dict_get d "id_" = Some (VStr i)) rows.
Proof.
  intros Hids. unfold collect_tracks_features_data. intros Hrun.
  apply bind_inv in Hrun as [(e & _ & ?)|(col & w1 & Hcol & Hrun)]; [done|].
  apply lift_inv in Hcol as [Hcol ->]. rewrite (tracks_df_column _ _ Hids) in Hcol.
  assert (col = Some <$> ids) as ->.
  { destruct ids; [done|]. by injection Hcol as ->. }
  clear Hcol. apply for_features_rows in Hrun as (new & -> & Hnew). simpl.
  eapply Forall_impl; [done|]. intros d (j & wa & v & wb & Hj & H).
  exists j, wa, v, wb. split; [|done].
  rewrite elem_of_unique in Hj. by apply (list_elem_of_fmap_inj_2 Some) in Hj.
Qed.

(** ** The history frame *)

Lemma shifted_endTime_Ok history endTime' :
  shifted_endTime pd_Timestamp history = Ok endTime' ->
  Forall2 (fun row t' => exists t, pd_Timestamp (endTime row) = Some t /\
                                   t' = Timestamp_add t (DateOffset_hours 3))
          history endTime'.
Proof.
  unfold shifted_endTime. destruct history as [|row0 history0]; [done|].
  generalize (row0 :: history0). clear row0 history0. intros history Hshift.
  apply rbind_Ok_inv in Hshift as (stamps & Hparse & [= <-]).
  apply mapM_Ok_Forall2, Forall2_fmap_l in Hparse.
  apply Forall2_fmap_r. eapply Forall2_impl; [exact Hparse|].
  intros row t Ht. exists t. simpl in Ht. split; [|done].
  by destruct (pd_Timestamp (endTime row)); simplify_eq.
Qed.

(** Within the 64 bits the sum is the sum. *)
Lemma Timestamp_add_exact t offset :
  t <> NaT -> - 2 ^ 63 <= t + offset < 2 ^ 63 ->
  Timestamp_add t offset = t + offset.
Proof.
  intros Ht Hrange. unfold Timestamp_add, int64_wrap.
  rewrite decide_False by done. rewrite Z.mod_small; lia.
Qed.

Lemma history_frame_lookup history endTime' qs id_ n row t q i :
  history !! n = Some row -> endTime' !! n = Some t ->
  qs !! n = Some q -> id_ !! n = Some i ->
  records (history_frame history endTime' qs id_) !! n = Some (history_row row t q i).
Proof.
  intros Hrow Ht Hq Hi. unfold history_frame. cbn [records].
  rewrite lookup_zip_with, (lookup_zip_with _ history), Hrow, Ht. simpl.
  by rewrite lookup_zip_with, Hq, Hi.
Qed.

(** The cells of the written history table, by label. *)
Lemma history_frame_cells history endTime' qs id_ n row t q i :
  history !! n = Some row -> endTime' !! n = Some t ->
  qs !! n = Some q -> id_ !! n = Some i ->
  let df := history_frame history endTime' qs id_ in
  cell_at df n "endTime" = Some (Stamp t) /\
  cell_at df n "artistName" = Some (Obj (VStr (artistName row))) /\
  cell_at df n "trackName" = Some (Obj (VStr (trackName row))) /\
  cell_at df n "artist+track" = Some (Obj (VStr q)) /\
  cell_at df n "id_" = Some (Obj (of_track_id i)).
Proof.
  intros Hrow Ht Hq Hi df. subst df. unfold cell_at.
  rewrite (history_frame_lookup _ _ _ _ _ _ _ _ _ Hrow Ht Hq Hi).
  repeat split;
    (case_decide as Hin;
     [reflexivity
     |exfalso; apply Hin; cbn [columns history_frame]; rewrite !elem_of_cons; auto 10]).
Qed.

Lemma history_frame_length history endTime' qs id_ :
  length endTime' = length history -> length qs = length history ->
  length id_ = length history ->
  length (records (history_frame history endTime' qs id_)) = length history.
Proof.
  intros Ht Hq Hi. unfold history_frame. cbn [records].
  rewrite !length_zip_with. lia.
Qed.

(** ** Runs of [main] *)

Lemma main_run_of history token w r w' :
  main upstream pd_Timestamp history token w = (r, w') ->
  main_run upstream pd_Timestamp history token w r w'.
Proof.
  unfold main. intros Hrun.
  apply bind_inv in Hrun as [(e & Hload & ->)|(endTime' & w0 & Hload & Hrun)];
    apply lift_inv in Hload as [Hload ->]; symmetry in Hload.
  { by apply run_load_raises. }
  apply bind_inv in Hrun as [(e & Hres & ->)|([qs id_] & w1 & Hres & Hrun)].
  { by eapply run_resolve_raises. }
  apply bind_inv in Hrun as [(e & Htracks & ->)|(tracks_data & w2 & Htracks & Hrun)].
  { by eapply run_tracks_raises. }
  apply bind_inv in Hrun as [(e & Hcsv & ->)|([] & w2' & Hcsv & Hrun)]; [done|].
  unfold to_csv in Hcsv. simplify_eq.
  apply bind_inv in Hrun as [(e & Hfeat & ->)|(rows & w3 & Hfeat & Hrun)].
  { by eapply run_features_raises. }
  apply bind_inv in Hrun as [(e & Hsel & ->)|(features_df & w3' & Hsel & Hrun)];
    apply lift_inv in Hsel as [Hsel ->]; symmetry in Hsel.
  { by eapply run_projection_raises. }
  apply bind_inv in Hrun as [(e & Hcsv & ->)|([] & w4 & Hcsv & Hrun)]; [done|].
  unfold to_csv in Hcsv, Hrun. simplify_eq.
  by eapply run_completes.
Qed.

(** A run that got through resolution and the metadata stage: what it has
    sent and written when the audio-feature stage ends, however it ends. *)
Lemma stages_effect history token w qs id_ w1 tracks_data w2 r w3 :
  resolve_ids upstream history token w = (Ok (qs, id_), w1) ->
  collect_tracks_data upstream token id_ w1 = (Ok tracks_data, w2) ->
  collect_tracks_features_data upstream token (pd_DataFrame tracks_data)
    (log_csv w2 "data/tracks.csv" (pd_DataFrame tracks_data)) = (r, w3) ->
  let ids := present (unique id_) in
  exists done,
    done `prefix_of` ids /\
    sent w3 = sent w ++ ((fun q => search_request q token) <$> unique qs)
                     ++ ((fun i => track_request i token) <$> ids)
                     ++ ((fun i => features_request i token) <$> done) /\
    written w3 = written w ++ [("data/tracks.csv", pd_DataFrame tracks_data)] /\
    (forall x, r = Ok x -> done = ids /\ ids <> []) /\
    (forall i, (forall log, upstream log (features_request i token) = TimesOut) ->
               i ∈ done -> r = Raise Timeout).
Proof.
  intros Hres Htracks Hfeat ids.
  pose proof (resolve_ids_Ok _ _ _ _ _ _ Hres) as [-> _].
  apply resolve_ids_effect in Hres as (qs' & _ & Hsent1 & Hwritten1 & Hqs).
  rewrite (Hqs _ eq_refl) in Hsent1. clear qs' Hqs.
  pose proof (collect_tracks_data_Ok _ _ _ _ _ Htracks) as Hids.
  apply collect_tracks_data_effect in Htracks as (ids' & _ & Hsent2 & Hwritten2 & Hall).
  rewrite (Hall _ eq_refl) in Hsent2. clear ids' Hall.
  eapply collect_tracks_features_data_effect in Hfeat
      as (done & Hdone & Hsent3 & Hwritten3 & Hall & Hslow);
    [|exact Hids|apply NoDup_present, NoDup_unique].
  exists done. split; [done|]. split; [|split; [|done]].
  - rewrite Hsent3. simpl. rewrite Hsent2, Hsent1. by rewrite <- !app_assoc.
  - rewrite Hwritten3. simpl. by rewrite Hwritten2, Hwritten1.
Qed.

(** What any run has sent: searches for distinct queries, then metadata
    requests for distinct ids, then audio-feature requests for distinct
    ids. *)
Lemma main_effect history token w r w' :
  main upstream pd_Timestamp history token w = (r, w') ->
  exists qs ids1 ids2,
    sent w' = sent w ++ ((fun q => search_request q token) <$> qs)
                     ++ ((fun i => track_request i token) <$> ids1)
                     ++ ((fun i => features_request i token) <$> ids2) /\
    NoDup qs /\ NoDup ids1 /\ NoDup ids2 /\
    (forall i, (forall log, upstream log (features_request i token) = TimesOut) ->
               i ∈ ids2 -> r = Raise Timeout).
Proof.
  intros Hrun. apply main_run_of in Hrun.
  destruct Hrun as [e Hload
                   |ts e w' Hload Hres
                   |ts qs id_ w1 e w' Hload Hres Htracks
                   |ts qs id_ w1 tracks_data w2 e w' Hload Hres Htracks Hfeat
                   |ts qs id_ w1 tracks_data w2 rows w3 e Hload Hres Htracks Hfeat Hsel
                   |ts qs id_ w1 tracks_data w2 rows w3 df Hload Hres Htracks Hfeat Hsel].
  - exists [], [], []. simpl. rewrite app_nil_r.
    repeat split; auto using NoDup_nil_2. by intros i _ ?%not_elem_of_nil.
  - apply resolve_ids_effect in Hres as (done & Hdone & Hsent & _ & _).
    exists done, [], []. simpl. rewrite app_nil_r.
    repeat split; eauto using NoDup_nil_2, prefix_NoDup, NoDup_unique.
    by intros i _ ?%not_elem_of_nil.
  - apply resolve_ids_effect in Hres as (done & _ & Hsent1 & _ & Hall).
    rewrite (Hall _ eq_refl) in Hsent1.
    apply collect_tracks_data_effect in Htracks as (ids & Hids & Hsent2 & _ & _).
    exists (unique (query <$> history)), ids, []. simpl. rewrite app_nil_r.
    split; [by rewrite Hsent2, Hsent1, <- app_assoc|].
    repeat split; eauto using NoDup_nil_2, prefix_NoDup, NoDup_unique, NoDup_present.
    by intros i _ ?%not_elem_of_nil.
  - destruct (stages_effect _ _ _ _ _ _ _ _ _ _ Hres Htracks Hfeat)
      as (done & Hdone & Hsent & _ & _ & Hslow).
    exists (unique qs), (present (unique id_)), done.
    repeat split; eauto using prefix_NoDup, NoDup_unique, NoDup_present.
    intros i Hi Hin. specialize (Hslow i Hi Hin). by simplify_eq.
  - destruct (stages_effect _ _ _ _ _ _ _ _ _ _ Hres Htracks Hfeat)
      as (done & Hdone & Hsent & _ & _ & Hslow).
    exists (unique qs), (present (unique id_)), done.
    repeat split; eauto using prefix_NoDup, NoDup_unique, NoDup_present.
    intros i Hi Hin. by specialize (Hslow i Hi Hin).
  - destruct (stages_effect _ _ _ _ _ _ _ _ _ _ Hres Htracks Hfeat)
      as (done & Hdone & Hsent & _ & _ & Hslow).
    exists (unique qs), (present (unique id_)), done.
    repeat split; eauto using prefix_NoDup, NoDup_unique, NoDup_present.
    intros i Hi Hin. by specialize (Hslow i Hi Hin).
Qed.

(** Counting the three kinds of request in such a trace. *)
Lemma calls_fmap_inj {A} `{EqDecision A} (f : A -> request) `{!Inj (=) (=) f}
    (l : list A) x :
  NoDup l -> calls (f x) (f <$> l) = if decide (x ∈ l) then 1%nat else 0%nat.
Proof.
  intros Hl. case_decide as Hx.
  - apply calls_elem_NoDup; [by apply NoDup_fmap_2 | by apply list_elem_of_fmap_2].
  - apply calls_not_elem. by rewrite list_elem_of_fmap_inj.
Qed.

Lemma calls_fmap_other {A} (f : A -> request) (l : list A) req :
  (forall x, f x <> req) -> calls req (f <$> l) = 0%nat.
Proof.
  intros Hne. apply calls_not_elem.
  intros (x & -> & _)%list_elem_of_fmap. by eapply Hne.
Qed.


Lemma calls_track token i qs ids1 ids2 :
  NoDup ids1 ->
  calls (track_request i token)
        (((fun q => search_request q token) <$> qs)
           ++ ((fun i => track_request i token) <$> ids1)
           ++ ((fun i => features_request i token) <$> ids2))
  = if decide (i ∈ ids1) then 1%nat else 0%nat.
Proof.
  intros Hids. rewrite !calls_app.
  rewrite (calls_fmap_inj _ (Inj0 := track_request_inj token)) by done.
  rewrite !calls_fmap_other; [lia| |].
  - intros j H. by eapply track_not_features.
  - intros q H. by eapply search_not_track.
Qed.

Lemma calls_features token i qs ids1 ids2 :
  NoDup ids2 ->
  calls (features_request i token)
        (((fun q => search_request q token) <$> qs)
           ++ ((fun i => track_request i token) <$> ids1)
           ++ ((fun i => features_request i token) <$> ids2))
  = if decide (i ∈ ids2) then 1%nat else 0%nat.
Proof.
  intros Hids. rewrite !calls_app.
  rewrite (calls_fmap_inj _ (Inj0 := features_request_inj token)) by done.
  rewrite !calls_fmap_other; [lia| |].
  - intros j H. by eapply track_not_features.
  - intros q H. by eapply search_not_features.
Qed.

(** An id column that is absent throughout fetches nothing. *)
Lemma for_tracks_data_absent token ids tracks_data w :
  Forall (.= None) ids ->
  for_ ids (tracks_data_step upstream token) tracks_data w = (Ok tracks_data, w).
Proof.
  induction 1 as [|? ids -> _ IH]; simpl; [done|].
  by rewrite (bind_Ok _ _ _ tracks_data w eq_refl).
Qed.

Lemma collect_tracks_data_absent token id_ w :
  Forall (.= None) id_ ->
  collect_tracks_data upstream token id_ w = (Ok [], w).
Proof.
  intros Hnone. apply for_tracks_data_absent.
  rewrite Forall_forall in Hnone. apply Forall_forall.
  intros i Hi. rewrite elem_of_unique in Hi. by apply Hnone.
Qed.

(** The [id_] column of the projected feature frame. *)
Lemma features_df_id_column (rows : list dict) :
  getattr_column {| columns := keep_features;
                    records := (fun d => row_cell rows d <$> keep_features) <$> rows |}
                 "id_"
  = Ok ((fun d => row_cell rows d "id_") <$> rows).
Proof.
  assert ("id_" ∈ keep_features) as Hin by (unfold keep_features; left).
  unfold getattr_column. cbn [columns records].
  rewrite decide_True by done. f_equal.
  rewrite <- list_fmap_compose. apply list_fmap_ext. intros _ d _.
  exact (frame_cell_fmap (row_cell rows d) keep_features "id_" Hin).
Qed.


(** C2, amended.  A run that aborts has written no file when it stopped at
    line 121, in resolution or in the metadata stage; when it stopped in the
    audio-feature stage or at the projection of line 178 it has written
    [data/tracks.csv], and that file only.  No aborted run writes
    [features.csv] or [streaming_history.csv]. *)
Theorem abort_keeps_tracks_only history token w e w' :
  main upstream pd_Timestamp history token w = (Raise e, w') ->
  (written w' = written w /\
   (shifted_endTime pd_Timestamp history = Raise e \/
    resolve_ids upstream history token w = (Raise e, w') \/
    exists qs id_ w1,
      resolve_ids upstream history token w = (Ok (qs, id_), w1) /\
      collect_tracks_data upstream token id_ w1 = (Raise e, w'))) \/
  (exists qs id_ w1 tracks_data w2,
      resolve_ids upstream history token w = (Ok (qs, id_), w1) /\
      collect_tracks_data upstream token id_ w1 = (Ok tracks_data, w2) /\
      written w' = written w ++ [("data/tracks.csv", pd_DataFrame tracks_data)] /\
      (collect_tracks_features_data upstream token (pd_DataFrame tracks_data)
         (log_csv w2 "data/tracks.csv" (pd_DataFrame tracks_data)) = (Raise e, w') \/
       exists rows,
         collect_tracks_features_data upstream token (pd_DataFrame tracks_data)
           (log_csv w2 "data/tracks.csv" (pd_DataFrame tracks_data)) = (Ok rows, w') /\
         getitem_columns (pd_DataFrame rows) keep_features = Raise e)).
Proof.
  intros Hrun. apply main_run_of in Hrun.
  inversion Hrun as [e' Hload
                    |ts e' w'' Hload Hres
                    |ts qs id_ w1 e' w'' Hload Hres Htracks
                    |ts qs id_ w1 tracks_data w2 e' w'' Hload Hres Htracks Hfeat
                    |ts qs id_ w1 tracks_data w2 rows w3 e' Hload Hres Htracks Hfeat Hsel
                    |]; subst.
  - left. auto.
  - left. split; [|auto]. by apply resolve_ids_effect in Hres as (? & _ & _ & ? & _).
  - left. split; [|eauto 10].
    pose proof Hres as (? & _ & _ & Hw1 & _)%resolve_ids_effect.
    pose proof Htracks as (? & _ & _ & Hw2 & _)%collect_tracks_data_effect.
    congruence.
  - right. exists qs, id_, w1, tracks_data, w2. repeat split; auto.
    by destruct (stages_effect _ _ _ _ _ _ _ _ _ _ Hres Htracks Hfeat)
      as (_ & _ & _ & ? & _).
  - right. exists qs, id_, w1, tracks_data, w2. repeat split; eauto.
    by destruct (stages_effect _ _ _ _ _ _ _ _ _ _ Hres Htracks Hfeat)
      as (_ & _ & _ & ? & _).
Qed.

(** C4.  [get_track_audio_features] answers a 503 with [None] before
    [raise_for_status] is consulted, and raises [HTTPError] on every other
    4xx or 5xx status.  In a completed run whose upstream answers 503 for
    the features of an id some record resolved to, the metadata table has a
    row with that id and the feature table has none. *)
Theorem features_503_is_absence :
  (forall i token w r,
      upstream (sent w) (features_request i token) = Responds r ->
      status_code r = 503 ->
      get_track_audio_features upstream i token w
      = (Ok VNone, log_request w (features_request i token))) /\
  (forall i token w r,
      upstream (sent w) (features_request i token) = Responds r ->
      400 <= status_code r < 600 ->
      status_code r <> 503 ->
      get_track_audio_features upstream i token w
      = (Raise (HTTPError (status_code r)), log_request w (features_request i token))) /\
  (forall history token w w' qs id_ w1 i,
      (forall log, exists r,
          upstream log (features_request i token) = Responds r /\ status_code r = 503) ->
      main upstream pd_Timestamp history token w = (Ok tt, w') ->
      resolve_ids upstream history token w = (Ok (qs, id_), w1) ->
      Some i ∈ id_ ->
      exists tracks_df features_df history_df tracks_ids features_ids,
        written w' = written w ++ [("data/tracks.csv", tracks_df);
                                   ("data/features.csv", features_df);
                                   ("data/streaming_history.csv", history_df)] /\
        getattr_column tracks_df "id_" = Ok tracks_ids /\
        Obj (VStr i) ∈ tracks_ids /\
        getattr_column features_df "id_" = Ok features_ids /\
        Obj (VStr i) ∉ features_ids).
Proof.
  split; [apply get_track_audio_features_503|].
  split; [apply get_track_audio_features_HTTPError|].
  intros history token w w' qs id_ w1 i H503 Hrun Hres Hi.
  apply main_run_of in Hrun.
  inversion Hrun as [| | | | |ts qs' id_' w1' tracks_data w2 rows w3 df
                               Hload Hres' Htracks Hfeat Hsel]; subst.
  rewrite Hres in Hres'. injection Hres' as <- <- <-.
  pose proof (collect_tracks_data_Ok _ _ _ _ _ Htracks) as Hids.
  assert (i ∈ present (unique id_)) as Hi'.
  { apply elem_of_present. by apply elem_of_unique. }
  destruct (stages_effect _ _ _ _ _ _ _ _ _ _ Hres Htracks Hfeat)
    as (_ & _ & _ & Hwritten & _ & _).
  pose proof (collect_tracks_features_data_rows _ _ _ _ _ _ Hids Hfeat) as Hrows.
  apply getitem_columns_pd in Hsel as ->.
  eexists _, _, _, _, _. split; [|split; [|split; [|split]]].
  - simpl. rewrite Hwritten. by rewrite <- !app_assoc.
  - apply tracks_df_id_column; [done|]. by intros Hnil; rewrite Hnil in Hi'; inversion Hi'.
  - by apply (list_elem_of_fmap_2 (fun i => Obj (VStr i))).
  - apply features_df_id_column.
  - intros (d & Hd & Hin)%list_elem_of_fmap.
    rewrite Forall_forall in Hrows.
    destruct (Hrows d Hin) as (j & wa & v & wb & _ & Hfetch & Hv & Hj).
    rewrite (row_cell_str _ _ _ _ Hin Hj) in Hd. simplify_eq.
    destruct (H503 (sent wa)) as (r & Hr & Hstatus).
    rewrite (get_track_audio_features_503 _ _ _ _ _ Hr Hstatus) in Hfetch.
    by simplify_eq.
Qed.

(** C6.  The history table a completed run writes has one row per record
    of the input, in the order of the input: the row at a position carries
    the [artistName] and the [trackName] of the record at that position, and
    its [endTime] is the parsed timestamp of the record plus three hours as
    the 64-bit nanosecond count pandas keeps.  That is the timestamp shifted
    by exactly three hours whenever the shifted time does not exceed the
    greatest [Timestamp]; beyond it the count wraps around. *)
Theorem history_rows_shifted history token w w' :
  main upstream pd_Timestamp history token w = (Ok tt, w') ->
  exists tracks_df features_df history_df,
    written w' = written w ++ [("data/tracks.csv", tracks_df);
                               ("data/features.csv", features_df);
                               ("data/streaming_history.csv", history_df)] /\
    length (records history_df) = length history /\
    forall n row,
      history !! n = Some row ->
      exists t,
        pd_Timestamp (endTime row) = Some t /\
        cell_at history_df n "artistName" = Some (Obj (VStr (artistName row))) /\
        cell_at history_df n "trackName" = Some (Obj (VStr (trackName row))) /\
        cell_at history_df n "endTime"
        = Some (Stamp (Timestamp_add t (DateOffset_hours 3))) /\
        (Timestamp_min <= t ->
         t + 3 * 3600 * 1000000000 <= Timestamp_max ->
         cell_at history_df n "endTime" = Some (Stamp (t + 3 * 3600 * 1000000000))).
Proof.
  intros Hrun. apply main_run_of in Hrun.
  inversion Hrun as [| | | | |ts qs id_ w1 tracks_data w2 rows w3 df
                               Hload Hres Htracks Hfeat Hsel]; subst.
  destruct (stages_effect _ _ _ _ _ _ _ _ _ _ Hres Htracks Hfeat)
    as (_ & _ & _ & Hwritten & _ & _).
  apply shifted_endTime_Ok in Hload.
  apply resolve_ids_Ok in Hres as (-> & id_map & _ & Hids).
  eexists _, _, _. split; [|split].
  - simpl. rewrite Hwritten. by rewrite <- !app_assoc.
  - apply history_frame_length.
    + symmetry. by eapply Forall2_length.
    + apply length_fmap.
    + apply Forall2_length in Hids. by rewrite <- Hids, length_fmap.
  - intros n row Hrow.
    destruct (Forall2_lookup_l _ _ _ _ _ Hload Hrow) as (t' & Ht' & t & Ht & ->).
    assert ((query <$> history) !! n = Some (query row)) as Hq
      by (by rewrite list_lookup_fmap, Hrow).
    destruct (Forall2_lookup_l _ _ _ _ _ Hids Hq) as (i & Hi & _).
    destruct (history_frame_cells _ _ _ _ _ _ _ _ _ Hrow Ht' Hq Hi)
      as (Hend & Hartist & Htrack & _ & _).
    exists t. split; [done|]. split; [done|]. split; [done|]. split; [done|].
    intros Hmin Hmax. rewrite Hend. do 2 f_equal.
    apply Timestamp_add_exact; unfold NaT, Timestamp_min, Timestamp_max, DateOffset_hours in *;
      lia.
Qed.


(** C8.  In every run a metadata request and an audio-feature request for
    a given id are each sent at most once.  A completed run has sent, after
    the searches, exactly one metadata request for each distinct non-absent
    id of the records and then exactly one audio-feature request for each
    id of the metadata table, which holds those same ids; no other request
    is sent, so an absent id causes neither fetch. *)
Theorem downstream_once_per_id history token w r w' :
  main upstream pd_Timestamp history token w = (r, w') ->
  exists tr,
    sent w' = sent w ++ tr /\
    (forall i, (calls (track_request i token) tr <= 1)%nat /\
               (calls (features_request i token) tr <= 1)%nat) /\
    (r = Ok tt ->
     exists qs id_ w1 tracks_df,
       resolve_ids upstream history token w = (Ok (qs, id_), w1) /\
       ("data/tracks.csv", tracks_df) ∈ written w' /\
       getattr_column tracks_df "id_"
       = Ok ((fun i => Obj (VStr i)) <$> present (unique id_)) /\
       tr = ((fun q => search_request q token) <$> unique qs)
              ++ ((fun i => track_request i token) <$> present (unique id_))
              ++ ((fun i => features_request i token) <$> present (unique id_)) /\
       (forall i, Some i ∈ id_ ->
                  calls (track_request i token) tr = 1%nat /\
                  calls (features_request i token) tr = 1%nat) /\
       (forall i, Some i ∉ id_ ->
                  calls (track_request i token) tr = 0%nat /\
                  calls (features_request i token) tr = 0%nat)).
Proof.
  intros Hrun.
  pose proof (main_effect _ _ _ _ _ Hrun)
    as (qs & ids1 & ids2 & Hsent & _ & Hids1 & Hids2 & _).
  eexists. split; [exact Hsent|]. split.
  { intros i. rewrite calls_track, calls_features by done.
    split; case_decide; lia. }
  intros ->. apply main_run_of in Hrun.
  inversion Hrun as [| | | | |ts qs' id_ w1 tracks_data w2 rows w3 df
                               Hload Hres Htracks Hfeat Hsel]; subst.
  destruct (stages_effect _ _ _ _ _ _ _ _ _ _ Hres Htracks Hfeat)
    as (done & _ & Hsent' & Hwritten & Hall & _).
  destruct (Hall _ eq_refl) as [-> Hne].
  simpl in Hsent. rewrite Hsent' in Hsent. apply app_inv_head in Hsent.
  pose proof (collect_tracks_data_Ok _ _ _ _ _ Htracks) as Hids.
  exists qs', id_, w1, (pd_DataFrame tracks_data).
  split; [done|]. split; [|split; [|split; [|split]]].
  - simpl. rewrite Hwritten, !elem_of_app, !list_elem_of_singleton. auto.
  - by apply tracks_df_id_column.
  - by rewrite Hsent.
  - intros i Hi.
    assert (i ∈ present (unique id_)) as Hi'
      by (by apply elem_of_present, elem_of_unique).
    rewrite <- Hsent.
    rewrite calls_track, calls_features by apply NoDup_present, NoDup_unique.
    by rewrite !decide_True.
  - intros i Hi.
    assert (i ∉ present (unique id_)) as Hi'
      by (by rewrite elem_of_present, elem_of_unique).
    rewrite <- Hsent.
    rewrite calls_track, calls_features by apply NoDup_present, NoDup_unique.
    by rewrite !decide_False.
Qed.


(** C10, amended.  Selecting the fixed columns from a frame without rows
    raises [KeyError].  A run whose audio-feature loop ends with no row --
    every fetch returned [None] -- so aborts at line 178.  A run in which no
    record resolved to an id does not get that far: reading the [id_] column
    of the empty metadata frame at line 163 raises [AttributeError].  Both
    have written [data/tracks.csv] and nothing else. *)
Theorem empty_feature_table_aborts history token w endTime' qs id_ w1 :
  shifted_endTime pd_Timestamp history = Ok endTime' ->
  resolve_ids upstream history token w = (Ok (qs, id_), w1) ->
  getitem_columns (pd_DataFrame []) keep_features = Raise (KeyError (VStr "id_")) /\
  (forall tracks_data w2 w3,
      collect_tracks_data upstream token id_ w1 = (Ok tracks_data, w2) ->
      collect_tracks_features_data upstream token (pd_DataFrame tracks_data)
        (log_csv w2 "data/tracks.csv" (pd_DataFrame tracks_data)) = (Ok [], w3) ->
      main upstream pd_Timestamp history token w = (Raise (KeyError (VStr "id_")), w3) /\
      written w3 = written w ++ [("data/tracks.csv", pd_DataFrame tracks_data)]) /\
  (Forall (.= None) id_ ->
   main upstream pd_Timestamp history token w
   = (Raise (AttributeError "id_"), log_csv w1 "data/tracks.csv" (pd_DataFrame [])) /\
   written (log_csv w1 "data/tracks.csv" (pd_DataFrame []))
   = written w ++ [("data/tracks.csv", pd_DataFrame [])]).
Proof.
  intros Hload Hres. split; [apply getitem_columns_empty|]. split.
  - intros tracks_data w2 w3 Htracks Hfeat. split.
    + unfold main.
      rewrite (bind_Ok _ _ _ endTime' w) by (by unfold lift; rewrite Hload).
      rewrite (bind_Ok _ _ _ _ _ Hres). cbn [fst snd].
      rewrite (bind_Ok _ _ _ _ _ Htracks).
      rewrite (bind_Ok _ _ _ tt (log_csv w2 "data/tracks.csv" (pd_DataFrame tracks_data)))
        by done.
      rewrite (bind_Ok _ _ _ _ _ Hfeat).
      apply bind_Raise. unfold lift. by rewrite getitem_columns_empty.
    + by destruct (stages_effect _ _ _ _ _ _ _ _ _ _ Hres Htracks Hfeat)
        as (_ & _ & _ & ? & _).
  - intros Hnone.
    pose proof (collect_tracks_data_absent token id_ w1 Hnone) as Htracks. split.
    + unfold main.
      rewrite (bind_Ok _ _ _ endTime' w) by (by unfold lift; rewrite Hload).
      rewrite (bind_Ok _ _ _ _ _ Hres). cbn [fst snd].
      rewrite (bind_Ok _ _ _ _ _ Htracks).
      rewrite (bind_Ok _ _ _ tt (log_csv w1 "data/tracks.csv" (pd_DataFrame [])))
        by done.
      apply bind_Raise. unfold collect_tracks_features_data.
      apply bind_Raise. unfold lift. by rewrite getattr_column_empty.
    + simpl. f_equal.
      by apply resolve_ids_effect in Hres as (? & _ & _ & ? & _).
Qed.

End Stages.

(** ** The script on the catalog *)

Example unique_first_appearance :
  unique ["a"; "b"; "a"; "c"; "b"] = ["a"; "b"; "c"].
Proof. reflexivity. Qed.

(** A column of numbers with a [null] holds floats and [NaN]; a column with
    a string keeps its [None]. *)
Example numeric_column_with_null :
  records (pd_DataFrame [[("popularity", VInt 42); ("name", VStr "Song")];
                         [("popularity", VNone); ("name", VNone)]])
  = [[Obj (VFloat 42 0); Obj (VStr "Song")]; [NaN; Obj VNone]].
Proof. reflexivity. Qed.

Example export_Timestamp_example :
  export_Timestamp "2021-03-01 22:30" = Some 1614637800000000000.
Proof. reflexivity. Qed.

Example mock_run_requests :
  url <$> sent (snd (mock_main no_fault mock_history))
  = ["https://api.spotify.com/v1/search";
     "https://api.spotify.com/v1/search";
     "https://api.spotify.com/v1/search";
     "https://api.spotify.com/v1/tracks/abc123";
     "https://api.spotify.com/v1/tracks/def456";
     "https://api.spotify.com/v1/audio-features/abc123";
     "https://api.spotify.com/v1/audio-features/def456"].
Proof. by vm_compute. Qed.

Example mock_run_prints :
  stdout (snd (mock_main no_fault mock_history)) = ["Nonexistent Artist Nosong"].
Proof. by vm_compute. Qed.

Example mock_run_files :
  fst <$> written (snd (mock_main no_fault mock_history))
  = ["data/tracks.csv"; "data/features.csv"; "data/streaming_history.csv"].
Proof. by vm_compute. Qed.

Example empty_history_aborts :
  mock_main no_fault [] = (Raise (AttributeError "endTime"), world0).
Proof. reflexivity. Qed.


Lemma second_artist_fields_witness :
  (exists data w',
      get_track_data (mock_upstream no_fault) "abc123" "token" world0 = (Ok data, w') /\
      dict_get data "artist2_id" = Some VNone /\
      dict_get data "artist2_name" = Some VNone /\
      dict_get data "artist2_type" = Some VNone) /\
  (exists data w',
      get_track_data (mock_upstream no_fault) "def456" "token" world0 = (Ok data, w') /\
      dict_get data "artist2_id" = Some (VStr "A3") /\
      dict_get data "artist2_name" = Some (VStr "Guest") /\
      dict_get data "artist2_type" = Some (VStr "artist")).
Proof.
  split.
  - eexists _, _. split; [vm_compute; reflexivity|].
    eapply (proj1 (second_artist_fields (mock_upstream no_fault) "abc123" "token" world0
                     _ mock_track _ _ _ eq_refl eq_refl eq_refl eq_refl)).
    simpl. lia.
  - eexists _, _. split; [vm_compute; reflexivity|].
    destruct (proj2 (second_artist_fields (mock_upstream no_fault) "def456" "token" world0
                       _ mock_duet _ _ _ eq_refl eq_refl eq_refl eq_refl)
                _ eq_refl) as (i & n & t & Hi & Hn & Ht & H).
    vm_compute in Hi, Hn, Ht. by simplify_eq.
Defined.

Lemma mock_main_eta fault history r :
  fst (mock_main fault history) = r ->
  main (mock_upstream fault) export_Timestamp history "token" world0
  = (r, snd (mock_main fault history)).
Proof. unfold mock_main. intros <-. by destruct (main _ _ _ _ _). Qed.



(** A server error in the audio-feature stage: the run aborts and
    [tracks.csv] stays. *)
Lemma abort_keeps_tracks_only_witness :
  exists w',
    mock_main (features_fault "abc123" server_error) mock_history
    = (Raise (HTTPError 500), w') /\
    exists tracks_df, written w' = [("data/tracks.csv", tracks_df)].
Proof.
  eexists. split; [by apply mock_main_eta|].
  destruct (abort_keeps_tracks_only
              (mock_upstream (features_fault "abc123" server_error))
              export_Timestamp mock_history "token" world0 (HTTPError 500) _
              (mock_main_eta _ _ _ eq_refl))
    as [[Hnone _]|(qs & id_ & w1 & tracks_data & w2 & _ & _ & Hwritten & _)].
  - vm_compute in Hnone. discriminate.
  - by eexists.
Defined.

Lemma abort_after_tracks_csv :
  ~ (forall upstream pd_Timestamp history token w e w',
        main upstream pd_Timestamp history token w = (Raise e, w') ->
        written w' = written w) /\
  fst (get_track_audio_features (mock_upstream (features_fault "abc123" server_error))
         "abc123" "token" world0)
  = Raise (HTTPError 500) /\
  fst (mock_main (features_fault "abc123" server_error) mock_history)
  = Raise (HTTPError 500) /\
  fst <$> written (snd (mock_main (features_fault "abc123" server_error) mock_history))
  = ["data/tracks.csv"].
Proof.
  split; [|by vm_compute].
  intros Hclaim.
  specialize (Hclaim (mock_upstream (features_fault "abc123" server_error))
                export_Timestamp mock_history "token" world0 (HTTPError 500) _
                (mock_main_eta _ _ _ eq_refl)).
  vm_compute in Hclaim. discriminate.
Qed.

Lemma features_503_is_absence_witness :
  get_track_audio_features (mock_upstream (features_fault "abc123" unavailable))
    "abc123" "token" world0
  = (Ok VNone, log_request world0 (features_request "abc123" "token")) /\
  get_track_audio_features (mock_upstream (features_fault "abc123" server_error))
    "abc123" "token" world0
  = (Raise (HTTPError 500), log_request world0 (features_request "abc123" "token")) /\
  exists tracks_df features_df history_df tracks_ids features_ids,
    written (snd (mock_main (features_fault "abc123" unavailable) mock_history))
    = [("data/tracks.csv", tracks_df); ("data/features.csv", features_df);
       ("data/streaming_history.csv", history_df)] /\
    getattr_column tracks_df "id_" = Ok tracks_ids /\
    Obj (VStr "abc123") ∈ tracks_ids /\
    getattr_column features_df "id_" = Ok features_ids /\
    Obj (VStr "abc123") ∉ features_ids.
Proof.
  split; [|split].
  - eapply (proj1 (features_503_is_absence _ export_Timestamp)); reflexivity.
  - apply (proj1 (proj2 (features_503_is_absence _ export_Timestamp))
             "abc123" "token" world0 {| status_code := 500; content := None |});
      [reflexivity | simpl; lia | simpl; lia].
  - eapply (proj2 (proj2 (features_503_is_absence
                            (mock_upstream (features_fault "abc123" unavailable))
                            export_Timestamp))
              mock_history "token" world0 _ _ _ _ "abc123").
    + intros log. eexists. split; reflexivity.
    + apply mock_main_eta. reflexivity.
    + vm_compute. reflexivity.
    + refine (bool_decide_unpack _ _). vm_compute. exact I.
Defined.

Lemma history_rows_shifted_witness :
  exists tracks_df features_df history_df,
    written (snd (mock_main no_fault mock_history))
    = [("data/tracks.csv", tracks_df); ("data/features.csv", features_df);
       ("data/streaming_history.csv", history_df)] /\
    length (records history_df) = 4%nat /\
    exists t,
      export_Timestamp "2021-03-02 08:19" = Some t /\
      cell_at history_df 3 "artistName" = Some (Obj (VStr "Artist Two")) /\
      cell_at history_df 3 "trackName" = Some (Obj (VStr "Tune")) /\
      cell_at history_df 3 "endTime" = Some (Stamp (t + 3 * 3600 * 1000000000)).
Proof.
  destruct (history_rows_shifted (mock_upstream no_fault) export_Timestamp
              mock_history "token" world0 _ (mock_main_eta _ _ _ eq_refl))
    as (tracks_df & features_df & history_df & Hwritten & Hlen & Hrows).
  exists tracks_df, features_df, history_df.
  split; [exact Hwritten|]. split; [exact Hlen|].
  destruct (Hrows 3%nat _ eq_refl) as (t & Ht & Hartist & Htrack & _ & Hexact).
  exists t. split; [exact Ht|]. split; [exact Hartist|]. split; [exact Htrack|].
  pose proof Ht as Ht'. vm_compute in Ht'. injection Ht' as <-.
  apply Hexact; by vm_compute.
Defined.

(** A record played at 22:00 on 2262-04-11: the run completes, and the
    written [endTime] is in the year 1677. *)
Lemma late_endTime_wraps :
  ~ (forall upstream pd_Timestamp history token w w',
        main upstream pd_Timestamp history token w = (Ok tt, w') ->
        exists tracks_df features_df history_df,
          written w' = written w ++ [("data/tracks.csv", tracks_df);
                                     ("data/features.csv", features_df);
                                     ("data/streaming_history.csv", history_df)] /\
          length (records history_df) = length history /\
          forall n row,
            history !! n = Some row ->
            exists t,
              pd_Timestamp (endTime row) = Some t /\
              cell_at history_df n "endTime"
              = Some (Stamp (t + 3 * 3600 * 1000000000))) /\
  fst (mock_main no_fault late_history) = Ok tt /\
  export_Timestamp "2262-04-11 22:00" = Some 9223365600000000000 /\
  exists tracks_df features_df history_df,
    written (snd (mock_main no_fault late_history))
    = [("data/tracks.csv", tracks_df); ("data/features.csv", features_df);
       ("data/streaming_history.csv", history_df)] /\
    cell_at history_df 0 "endTime" = Some (Stamp (-9223367673709551616)).
Proof.
  split; [|split; [by vm_compute|split; [by vm_compute|]]].
  - intros Hclaim.
    destruct (Hclaim (mock_upstream no_fault) export_Timestamp late_history
                "token" world0 _ (mock_main_eta _ _ _ eq_refl))
      as (tracks_df & features_df & history_df & Hwritten & _ & Hrows).
    destruct (Hrows 0%nat _ eq_refl) as (t & Ht & Hcell).
    vm_compute in Ht. injection Ht as <-.
    vm_compute in Hwritten. injection Hwritten as _ _ <-.
    vm_compute in Hcell. discriminate.
  - eexists _, _, _. split; [vm_compute; reflexivity|]. by vm_compute.
Qed.


Lemma downstream_once_per_id_witness :
  exists tr,
    sent (snd (mock_main no_fault mock_history)) = tr /\
    calls (track_request "abc123" "token") tr = 1%nat /\
    calls (features_request "abc123" "token") tr = 1%nat /\
    calls (track_request "zzz999" "token") tr = 0%nat /\
    calls (features_request "zzz999" "token") tr = 0%nat.
Proof.
  destruct (downstream_once_per_id (mock_upstream no_fault) export_Timestamp
              mock_history "token" world0 (Ok tt) _ (mock_main_eta _ _ _ eq_refl))
    as (tr & Hsent & _ & Hdone).
  destruct (Hdone eq_refl) as (qs & id_ & w1 & tracks_df & Hres & _ & _ & _ & Hin & Hout).
  vm_compute in Hres. injection Hres as <- <- <-.
  exists tr. split; [exact Hsent|].
  split; [|split]; [apply Hin | apply Hin | apply Hout].
  - refine (bool_decide_unpack _ _). vm_compute. exact I.
  - refine (bool_decide_unpack _ _). vm_compute. exact I.
  - refine (bool_decide_unpack _ _). vm_compute. exact I.
Defined.


(** No record resolved, and every feature fetch absent. *)
Lemma empty_feature_table_aborts_witness :
  fst (mock_main (every_features_fault unavailable) mock_history)
  = Raise (KeyError (VStr "id_")) /\
  fst (mock_main (search_fault TimesOut) mock_history)
  = Raise (AttributeError "id_").
Proof.
  split.
  - destruct (empty_feature_table_aborts
                (mock_upstream (every_features_fault unavailable)) export_Timestamp
                mock_history "token" world0 _ _ _ _
                ltac:(vm_compute; reflexivity) ltac:(vm_compute; reflexivity))
      as (_ & Hzero & _).
    unfold mock_main.
    edestruct Hzero as [-> _];
      [vm_compute; reflexivity | vm_compute; reflexivity | reflexivity].
  - destruct (empty_feature_table_aborts
                (mock_upstream (search_fault TimesOut)) export_Timestamp
                mock_history "token" world0 _ _ _ _
                ltac:(vm_compute; reflexivity) ltac:(vm_compute; reflexivity))
      as (_ & _ & Hnone).
    unfold mock_main. rewrite (proj1 (Hnone ltac:(repeat constructor))).
    reflexivity.
Defined.

Lemma unresolved_run_stops_at_id_column :
  ~ (forall upstream pd_Timestamp history token w endTime' qs id_ w1,
        shifted_endTime pd_Timestamp history = Ok endTime' ->
        resolve_ids upstream history token w = (Ok (qs, id_), w1) ->
        Forall (.= None) id_ ->
        exists e w',
          getitem_columns (pd_DataFrame []) keep_features = Raise e /\
          main upstream pd_Timestamp history token w = (Raise e, w')) /\
  (exists qs w1,
      resolve_ids (mock_upstream (search_fault TimesOut)) mock_history "token" world0
      = (Ok (qs, [None; None; None; None]), w1)) /\
  fst (mock_main (search_fault TimesOut) mock_history) = Raise (AttributeError "id_").
Proof.
  split; [|split; [eexists _, _|]; by vm_compute].
  intros Hclaim.
  destruct (Hclaim (mock_upstream (search_fault TimesOut)) export_Timestamp
              mock_history "token" world0 _ _ _ _
              ltac:(vm_compute; reflexivity) ltac:(vm_compute; reflexivity)
              ltac:(repeat constructor))
    as (e & w' & Hsel & Hrun).
  vm_compute in Hsel, Hrun. congruence.
Qed.


(** * Further properties of the script *)

(** ** More on lists, dicts and frames *)

Lemma unique_from_all_seen {A} `{EqDecision A} (seen l : list A) :
  (forall x, x ∈ l -> x ∈ seen) -> unique_from seen l = [].
Proof.
  induction l as [|x l IH]; intros Hseen; simpl; [done|].
  rewrite decide_True by (apply Hseen; left).
  apply IH. intros y Hy. apply Hseen. by right.
Qed.

Lemma unique_from_ext {A} `{EqDecision A} (seen seen' l : list A) :
  (forall x, x ∈ seen <-> x ∈ seen') -> unique_from seen l = unique_from seen' l.
Proof.
  revert seen seen'. induction l as [|x l IH]; intros seen seen' Hext; simpl; [done|].
  destruct (decide (x ∈ seen)) as [Hx|Hx].
  - rewrite decide_True by (by apply Hext). by apply IH.
  - rewrite decide_False by (by rewrite <- Hext). f_equal. apply IH.
    intros y. rewrite !elem_of_cons, Hext. done.
Qed.

Lemma unique_from_app {A} `{EqDecision A} (seen l k : list A) :
  unique_from seen (l ++ k) = unique_from seen l ++ unique_from (l ++ seen) k.
Proof.
  revert seen. induction l as [|x l IH]; intros seen; simpl; [done|].
  destruct (decide (x ∈ seen)) as [Hx|Hx].
  - rewrite IH. f_equal. apply unique_from_ext.
    intros y. rewrite elem_of_cons, !elem_of_app. split; [tauto|].
    intros [->|?]; tauto.
  - simpl. f_equal. rewrite IH. f_equal. apply unique_from_ext.
    intros y. rewrite !elem_of_cons, !elem_of_app, elem_of_cons. tauto.
Qed.

(** Rows that all have the keys [K] give a frame with the columns [K]. *)
Lemma columns_uniform (rows : list dict) (K : list string) :
  rows <> [] -> NoDup K -> Forall (fun d => keys d = K) rows ->
  columns (pd_DataFrame rows) = K.
Proof.
  intros Hne HK Hrows. destruct rows as [|d rows]; [done|].
  apply Forall_cons in Hrows as [Hd Hrows].
  simpl. rewrite Hd. unfold unique. rewrite unique_from_app.
  rewrite (unique_from_NoDup [] K HK) by (intros x _; apply not_elem_of_nil).
  rewrite unique_from_all_seen; [by rewrite app_nil_r|].
  intros x (ks & Hx & (d' & -> & Hd')%list_elem_of_fmap)%elem_of_concat.
  rewrite Forall_forall in Hrows. rewrite (Hrows d' Hd') in Hx.
  apply elem_of_app. by left.
Qed.

Lemma dict_get_keys d k : k ∈ keys d -> exists v, dict_get d k = Some v.
Proof.
  unfold keys. induction d as [|[k' v'] d IH]; simpl.
  - by intros ?%not_elem_of_nil.
  - intros [->|Hk]%elem_of_cons; [rewrite decide_True by done; eauto|].
    case_decide; eauto.
Qed.

(** The cells under [id_] of rows that carry string ids. *)
Lemma id_cells (rows : list dict) (ids : list string) :
  (fun d => dict_get d "id_") <$> rows = (fun i => Some (VStr i)) <$> ids ->
  (fun d => row_cell rows d "id_") <$> rows = (fun i => Obj (VStr i)) <$> ids.
Proof. apply str_column_cells. Qed.

Lemma mapM_Ok_intro {A B} (f : A -> result B) (l : list A) :
  (forall x, x ∈ l -> exists y, f x = Ok y) -> exists l', mapM f l = Ok l'.
Proof.
  induction l as [|x l IH]; intros Hl; simpl; [by eexists|].
  destruct (Hl x) as [y ->]; [left|].
  destruct IH as [l' ->]; [intros z Hz; apply Hl; by right|].
  simpl. by eexists.
Qed.

Lemma mapM_Raise {A B} (f : A -> result B) (l : list A) x e :
  x ∈ l -> f x = Raise e -> (forall y e', f y = Raise e' -> e' = e) ->
  mapM f l = Raise e.
Proof.
  intros Hx Hfx Honly. induction l as [|y l IH]; [by apply not_elem_of_nil in Hx|].
  simpl. destruct (f y) as [b|e'] eqn:Hy; simpl.
  - apply elem_of_cons in Hx as [->|Hx]; [congruence|].
    by rewrite (IH Hx).
  - by rewrite (Honly _ _ Hy).
Qed.

(** The fifteen keys of [selected_data], then [id_]. *)
Lemma selected_data_keys track_data data :
  selected_data track_data = Ok data ->
  keys data
  = ["album_type"; "album_id"; "album_name"; "album_release_date";
     "artist1_id"; "artist1_name"; "artist1_type";
     "artist2_id"; "artist2_name"; "artist2_type";
     "duration_ms"; "is_local"; "name"; "popularity"; "type"].
Proof.
  unfold selected_data. intros Hsel.
  repeat (apply rbind_Ok_inv in Hsel as (? & ? & Hsel)).
  by simplify_eq.
Qed.

Lemma selected_data_set_id_keys track_data data v :
  selected_data track_data = Ok data ->
  keys (dict_set data "id_" v)
  = ["album_type"; "album_id"; "album_name"; "album_release_date";
     "artist1_id"; "artist1_name"; "artist1_type";
     "artist2_id"; "artist2_name"; "artist2_type";
     "duration_ms"; "is_local"; "name"; "popularity"; "type"; "id_"].
Proof.
  unfold selected_data. intros Hsel.
  repeat (apply rbind_Ok_inv in Hsel as (? & ? & Hsel)).
  by simplify_eq.
Qed.

(** ** What the fetchers print *)

Lemma get_id_stdout upstream q token w r w' :
  get_id upstream q token w = (r, w') ->
  stdout w' = stdout w \/ (stdout w' = stdout w ++ [q] /\ r = Ok VNone).
Proof.
  unfold get_id, try_except, bind, raise_for_status, response_json, lift, ret,
    raise, print.
  rewrite requests_get_run.
  intros Hrun. repeat case_match; simplify_eq; auto.
Qed.

Lemma get_track_data_stdout upstream i token w r w' :
  get_track_data upstream i token w = (r, w') -> stdout w' = stdout w.
Proof.
  unfold get_track_data, bind, raise_for_status, response_json, lift, ret, raise.
  rewrite requests_get_run.
  intros Hrun. repeat case_match; simplify_eq; done.
Qed.

Lemma get_track_audio_features_stdout upstream i token w r w' :
  get_track_audio_features upstream i token w = (r, w') -> stdout w' = stdout w.
Proof.
  unfold get_track_audio_features, bind, raise_for_status, response_json, lift,
    ret, raise.
  rewrite requests_get_run.
  intros Hrun. repeat case_match; simplify_eq; done.
Qed.

Lemma for_silent {A S} (body : A -> S -> M S) :
  (forall x s w r w', body x s w = (r, w') -> stdout w' = stdout w) ->
  forall xs s w r w', for_ xs body s w = (r, w') -> stdout w' = stdout w.
Proof.
  intros Hbody xs. induction xs as [|x xs IH]; intros s w r w' Hrun; simpl in Hrun.
  - by inv_run Hrun.
  - apply bind_inv in Hrun as [(e & Hx & ->)|(s1 & w1 & Hx & Hrun)].
    + eauto.
    + apply Hbody in Hx. apply IH in Hrun. congruence.
Qed.

Lemma for_stdout {S} (body : string -> S -> M S) :
  (forall x s w r w', body x s w = (r, w') ->
      stdout w' = stdout w \/ stdout w' = stdout w ++ [x]) ->
  forall xs s w r w',
    for_ xs body s w = (r, w') ->
    exists out, stdout w' = stdout w ++ out /\ out `sublist_of` xs.
Proof.
  intros Hbody xs. induction xs as [|x xs IH]; intros s w r w' Hrun; simpl in Hrun.
  - inv_run Hrun. exists []. by rewrite app_nil_r.
  - apply bind_inv in Hrun as [(e & Hx & ->)|(s1 & w1 & Hx & Hrun)].
    + apply Hbody in Hx as [Hx|Hx].
      * exists []. rewrite app_nil_r. split; [done|]. apply sublist_nil_l.
      * exists [x]. split; [done|]. apply sublist_skip, sublist_nil_l.
    + apply IH in Hrun as (out & Hout & Hsub).
      apply Hbody in Hx as [Hx|Hx].
      * exists out. split; [congruence|]. by apply sublist_cons.
      * exists (x :: out). split; [|by apply sublist_skip].
        rewrite Hout, Hx. by rewrite <- app_assoc.
Qed.

(** ** The fetchers, whatever the upstream does *)

(** X2.  A call of a fetcher sends exactly its one request whatever comes of
    it -- nothing is retried -- and writes no file.  [get_track_data] and
    [get_track_audio_features] print nothing; [get_id] prints nothing or,
    returning [None], the query. *)
Theorem fetchers_send_one_request upstream token :
  (forall q w r w',
      get_id upstream q token w = (r, w') ->
      sent w' = sent w ++ [search_request q token] /\
      written w' = written w /\
      (stdout w' = stdout w \/ (stdout w' = stdout w ++ [q] /\ r = Ok VNone))) /\
  (forall i w r w',
      get_track_data upstream i token w = (r, w') ->
      sent w' = sent w ++ [track_request i token] /\
      written w' = written w /\ stdout w' = stdout w) /\
  (forall i w r w',
      get_track_audio_features upstream i token w = (r, w') ->
      sent w' = sent w ++ [features_request i token] /\
      written w' = written w /\ stdout w' = stdout w).
Proof.
  split; [|split].
  - intros q w r w' Hrun.
    destruct (get_id_effect _ _ _ _ _ _ Hrun) as [Hsent Hwritten].
    split; [done|]. split; [done|]. by eapply get_id_stdout.
  - intros i w r w' Hrun.
    destruct (get_track_data_effect _ _ _ _ _ _ Hrun) as [Hsent Hwritten].
    split; [done|]. split; [done|]. by eapply get_track_data_stdout.
  - intros i w r w' Hrun.
    destruct (get_track_audio_features_effect _ _ _ _ _ _ Hrun) as [Hsent Hwritten].
    split; [done|]. split; [done|]. by eapply get_track_audio_features_stdout.
Qed.

(** X4.  [get_id] catches nothing else: a failed connection, a body that is
    not JSON, a body without [tracks] or [items], and a first item without
    [id] all raise. *)
Theorem get_id_raises_the_rest upstream q token w :
  let req := search_request q token in
  (upstream (sent w) req = ConnectionFails ->
   get_id upstream q token w = (Raise ConnectionError, log_request w req)) /\
  (forall r,
      upstream (sent w) req = Responds r ->
      ~ 400 <= status_code r < 600 ->
      content r = None ->
      get_id upstream q token w = (Raise JSONDecodeError, log_request w req)) /\
  (forall r json,
      upstream (sent w) req = Responds r ->
      ~ 400 <= status_code r < 600 ->
      content r = Some json ->
      getitem json "tracks" = Raise (KeyError (VStr "tracks")) ->
      get_id upstream q token w
      = (Raise (KeyError (VStr "tracks")), log_request w req)) /\
  (forall r json tracks,
      upstream (sent w) req = Responds r ->
      ~ 400 <= status_code r < 600 ->
      content r = Some json ->
      getitem json "tracks" = Ok tracks ->
      getitem tracks "items" = Raise (KeyError (VStr "items")) ->
      get_id upstream q token w
      = (Raise (KeyError (VStr "items")), log_request w req)) /\
  (forall r json tracks first rest,
      upstream (sent w) req = Responds r ->
      ~ 400 <= status_code r < 600 ->
      content r = Some json ->
      getitem json "tracks" = Ok tracks ->
      getitem tracks "items" = Ok (VList (first :: rest)) ->
      getitem first "id" = Raise (KeyError (VStr "id")) ->
      get_id upstream q token w
      = (Raise (KeyError (VStr "id")), log_request w req)).
Proof.
  intros req.
  split; [|split; [|split; [|split]]].
  - intros Hr. unfold get_id, try_except, bind.
    rewrite requests_get_run. fold req. by rewrite Hr.
  - intros r Hr Hok Hbody.
    unfold get_id, try_except, bind, raise_for_status, response_json.
    rewrite requests_get_run. fold req. rewrite Hr.
    rewrite decide_False by done. simpl. by rewrite Hbody.
  - intros r json Hr Hok Hbody Htracks.
    unfold get_id, try_except, bind, raise_for_status, response_json, lift.
    rewrite requests_get_run. fold req. rewrite Hr.
    rewrite decide_False by done. simpl. rewrite Hbody. simpl.
    by rewrite Htracks.
  - intros r json tracks Hr Hok Hbody Htracks Hitems.
    unfold get_id, try_except, bind, raise_for_status, response_json, lift.
    rewrite requests_get_run. fold req. rewrite Hr.
    rewrite decide_False by done. simpl. rewrite Hbody. simpl.
    rewrite Htracks. simpl. by rewrite Hitems.
  - intros r json tracks first rest Hr Hok Hbody Htracks Hitems Hid.
    unfold get_id, try_except, bind, raise_for_status, response_json, lift.
    rewrite requests_get_run. fold req. rewrite Hr.
    rewrite decide_False by done. simpl. rewrite Hbody. simpl.
    rewrite Htracks. simpl. rewrite Hitems. simpl. by rewrite Hid.
Qed.

(** X5.  [get_track_data] sends its request without a deadline and handles
    no failure: a timeout of the transport, a failed connection and every
    4xx or 5xx status, the 503 included, are raised. *)
Theorem get_track_data_raises upstream i token w :
  let req := track_request i token in
  timeout req = None /\
  (upstream (sent w) req = TimesOut ->
   get_track_data upstream i token w = (Raise Timeout, log_request w req)) /\
  (upstream (sent w) req = ConnectionFails ->
   get_track_data upstream i token w = (Raise ConnectionError, log_request w req)) /\
  (forall r,
      upstream (sent w) req = Responds r ->
      400 <= status_code r < 600 ->
      get_track_data upstream i token w
      = (Raise (HTTPError (status_code r)), log_request w req)).
Proof.
  intros req. split; [done|].
  split; [|split].
  - intros Hr. unfold get_track_data, bind. rewrite requests_get_run.
    fold req. by rewrite Hr.
  - intros Hr. unfold get_track_data, bind. rewrite requests_get_run.
    fold req. by rewrite Hr.
  - intros r Hr Hbad. unfold get_track_data, bind, raise_for_status.
    rewrite requests_get_run. fold req. rewrite Hr. by rewrite decide_True.
Qed.

(** X6.  The row [get_track_data] returns has the fifteen keys of the dict
    display, in its order, and under each the field of the response it
    names: the album's, the first artist's, and the track's own. *)
Theorem selected_data_fields upstream i token w data w' :
  get_track_data upstream i token w = (Ok data, w') ->
  exists r track_data album artists first,
    upstream (sent w) (track_request i token) = Responds r /\
    content r = Some track_data /\
    getitem track_data "album" = Ok album /\
    getitem track_data "artists" = Ok artists /\
    getindex artists 0 = Ok first /\
    keys data
    = ["album_type"; "album_id"; "album_name"; "album_release_date";
       "artist1_id"; "artist1_name"; "artist1_type";
       "artist2_id"; "artist2_name"; "artist2_type";
       "duration_ms"; "is_local"; "name"; "popularity"; "type"] /\
    (forall k, k ∈ ["type"; "id"; "name"; "release_date"] ->
               exists v, getitem album k = Ok v /\
                         dict_get data ("album_" +:+ k) = Some v) /\
    (forall k, k ∈ ["id"; "name"; "type"] ->
               exists v, getitem first k = Ok v /\
                         dict_get data ("artist1_" +:+ k) = Some v) /\
    (forall k, k ∈ ["duration_ms"; "is_local"; "name"; "popularity"; "type"] ->
               exists v, getitem track_data k = Ok v /\ dict_get data k = Some v).
Proof.
  intros Hrun.
  apply get_track_data_Ok in Hrun as (r & td & Hr & _ & Hbody & Hsel).
  exists r, td. unfold selected_data in Hsel.
  destruct (getitem td "album") as [album|] eqn:Halbum; [|done].
  destruct (getitem td "artists") as [artists|] eqn:Hartists;
    [|simpl in Hsel; by repeat (apply rbind_Ok_inv in Hsel as (? & ? & Hsel))].
  simpl in Hsel.
  repeat (apply rbind_Ok_inv in Hsel as (? & ? & Hsel)).
  destruct (getindex artists 0) as [first|] eqn:Hfirst; [|done].
  simpl in *. simplify_eq.
  exists album, artists, first.
  repeat split; try done.
  - intros k Hk. repeat (apply elem_of_cons in Hk as [->|Hk]); eauto.
    by apply not_elem_of_nil in Hk.
  - intros k Hk. repeat (apply elem_of_cons in Hk as [->|Hk]); eauto.
    by apply not_elem_of_nil in Hk.
  - intros k Hk. repeat (apply elem_of_cons in Hk as [->|Hk]); eauto.
    by apply not_elem_of_nil in Hk.
Qed.

(** X7.  A response with an empty artist list gives no row: once the four
    album fields are read, [artists[0]] raises [IndexError]. *)
Theorem get_track_data_no_artist upstream i token w r track_data album :
  upstream (sent w) (track_request i token) = Responds r ->
  ~ 400 <= status_code r < 600 ->
  content r = Some track_data ->
  getitem track_data "album" = Ok album ->
  (forall k, k ∈ ["type"; "id"; "name"; "release_date"] ->
             exists v, getitem album k = Ok v) ->
  getitem track_data "artists" = Ok (VList []) ->
  get_track_data upstream i token w
  = (Raise IndexError, log_request w (track_request i token)).
Proof.
  intros Hr Hok Hbody Halbum Hfields Hartists.
  unfold get_track_data, bind, raise_for_status, response_json, lift.
  rewrite requests_get_run, Hr. rewrite decide_False by done. simpl.
  rewrite Hbody. simpl. f_equal.
  unfold selected_data. rewrite Halbum, Hartists. simpl.
  destruct (Hfields "type") as [v1 ->]; [repeat constructor|].
  destruct (Hfields "id") as [v2 ->]; [repeat constructor|].
  destruct (Hfields "name") as [v3 ->]; [repeat constructor|].
  destruct (Hfields "release_date") as [v4 ->]; [repeat constructor|].
  done.
Qed.

(** ** The stages, further *)

Section Further.
Variable upstream : list request -> request -> outcome.
Variable pd_Timestamp : string -> option Z.

(** The mapping of line 146 over distinct queries: every query holds what
    [get_id] returned for it when the loop called it, no other key is
    touched, and a printed query holds [None]. *)
Lemma for_id_map token qs (m : gmap string track_id) w m' w' :
  NoDup qs ->
  for_ qs (id_map_entry upstream token) m w = (Ok m', w') ->
  sent w `prefix_of` sent w' /\
  (forall q, q ∈ qs ->
     exists wq found wq' i,
       sent w `prefix_of` sent wq /\ sent wq' `prefix_of` sent w' /\
       get_id upstream q token wq = (Ok found, wq') /\
       as_track_id found = Ok i /\ m' !! q = Some i) /\
  (forall q, q ∉ qs -> m' !! q = m !! q) /\
  exists out,
    stdout w' = stdout w ++ out /\ out `sublist_of` qs /\
    forall q, q ∈ out -> m' !! q = Some None.
Proof.
  intros Hqs. revert m w.
  induction Hqs as [|q qs Hq Hqs IH]; intros m w Hrun; simpl in Hrun.
  - inv_run Hrun. split; [done|]. split; [by intros q ?%not_elem_of_nil|].
    split; [done|].
    exists []. rewrite app_nil_r. split; [done|]. split; [done|].
    by intros q ?%not_elem_of_nil.
  - apply bind_inv in Hrun as [(e & _ & ?)|(m1 & w1 & Hstep & Hrun)]; [done|].
    unfold id_map_entry in Hstep.
    apply bind_inv in Hstep as [(e & _ & ?)|(found & wa & Hfetch & Hstep)]; [done|].
    apply bind_inv in Hstep as [(e & _ & ?)|(i & wb & Hid & Hstep)]; [done|].
    apply lift_inv in Hid as [Hid ->]. inv_run Hstep. symmetry in Hid.
    destruct (IH _ _ Hrun) as (Hext & Hin & Hout & out & Hstdout & Hsub & Hnone).
    assert (m' !! q = Some i) as Hmq by (by rewrite Hout, lookup_insert_eq).
    assert (sent w `prefix_of` sent w1) as Hw1.
    { apply get_id_effect in Hfetch as [-> _]. by eexists. }
    split; [by etrans|]. split; [|split].
    + intros q' [->|Hq']%elem_of_cons.
      * by exists w, found, w1, i.
      * destruct (Hin q' Hq') as (wq & f & wq' & j & ? & ? & ?).
        exists wq, f, wq', j. split; [by etrans | done].
    + intros q' [Hne Hq']%not_elem_of_cons.
      rewrite Hout by done. by rewrite lookup_insert_ne.
    + destruct (get_id_stdout _ _ _ _ _ _ Hfetch) as [Hsame|[Hprint Hfound]].
      * exists out. split; [congruence|]. split; [by apply sublist_cons|done].
      * exists (q :: out). split; [|split].
        -- rewrite Hstdout, Hprint. by rewrite <- app_assoc.
        -- by apply sublist_skip.
        -- intros q' [->|Hq']%elem_of_cons; [|by apply Hnone].
           injection Hfound as ->. simpl in Hid. by simplify_eq.
Qed.

(** With the queries of the history for keys, the lookups of line 149 all
    succeed. *)
Lemma id_map_keys history token w (id_map : gmap string track_id) w1 :
  for_ (unique (query <$> history)) (id_map_entry upstream token) ∅ w
  = (Ok id_map, w1) ->
  forall q, is_Some (id_map !! q) <-> q ∈ query <$> history.
Proof.
  intros Hloop q.
  destruct (for_id_map _ _ _ _ _ _ (NoDup_unique _) Hloop) as (_ & Hin & Hout & _).
  split.
  - intros Hq. destruct (decide (q ∈ query <$> history)) as [|Hno]; [done|].
    rewrite Hout in Hq by (by rewrite elem_of_unique).
    rewrite lookup_empty in Hq. by destruct Hq.
  - intros Hq. destruct (Hin q) as (_ & _ & _ & i & _ & _ & _ & _ & Hi);
      [by apply elem_of_unique | by eexists].
Qed.

Lemma resolve_ids_from_loop history token w (id_map : gmap string track_id) w1 :
  for_ (unique (query <$> history)) (id_map_entry upstream token) ∅ w
  = (Ok id_map, w1) ->
  exists id_,
    mapM (id_map_lookup id_map) (query <$> history) = Ok id_ /\
    resolve_ids upstream history token w = (Ok (query <$> history, id_), w1).
Proof.
  intros Hloop.
  destruct (mapM_Ok_intro (id_map_lookup id_map) (query <$> history)) as [id_ Hid].
  { intros q Hq. apply (id_map_keys _ _ _ _ _ Hloop) in Hq as [i Hi].
    exists i. unfold id_map_lookup. by rewrite Hi. }
  exists id_. split; [done|]. unfold resolve_ids.
  rewrite (bind_Ok _ _ _ _ _ Hloop).
  by rewrite (bind_Ok _ _ _ id_ w1) by (by unfold lift; rewrite Hid).
Qed.

(** A loop whose body always ends normally ends normally. *)
Lemma for_progress {A S} (body : A -> S -> M S) xs :
  (forall x s w, x ∈ xs -> exists s' w', body x s w = (Ok s', w')) ->
  forall s w, exists s' w', for_ xs body s w = (Ok s', w').
Proof.
  induction xs as [|x xs IH]; intros Hbody s w; simpl; [by eexists _, _|].
  destruct (Hbody x s w) as (s1 & w1 & Hx); [left|].
  rewrite (bind_Ok _ _ _ _ _ Hx). apply IH.
  intros y s2 w2 Hy. apply Hbody. by right.
Qed.

Lemma filter_nil_intro {A} (P : A -> Prop) `{!forall x, Decision (P x)} (l : list A) :
  (forall x, x ∈ l -> ~ P x) -> filter P l = [].
Proof.
  induction l as [|x l IH]; intros Hl; [done|].
  rewrite filter_cons_False by (apply Hl; left).
  apply IH. intros y Hy. apply Hl. by right.
Qed.

Lemma keys_dict_set d k v k' :
  k' ∈ keys (dict_set d k v) <-> k' = k \/ k' ∈ keys d.
Proof.
  unfold keys. induction d as [|[k0 v0] d IH]; simpl.
  - rewrite list_elem_of_singleton. split; [auto|]. intros [?|?%not_elem_of_nil]; done.
  - case_decide; simpl; rewrite !elem_of_cons.
    + subst. tauto.
    + rewrite IH. tauto.
Qed.

Lemma for_Raise_body {A S} (body : A -> S -> M S) xs :
  forall s w e w',
    for_ xs body s w = (Raise e, w') ->
    exists x s1 w1, x ∈ xs /\ body x s1 w1 = (Raise e, w').
Proof.
  induction xs as [|x xs IH]; intros s w e w' Hrun; simpl in Hrun.
  - inv_run Hrun.
  - apply bind_inv in Hrun as [(e' & Hx & He)|(s1 & w1 & Hx & Hrun)].
    + simplify_eq. exists x, s, w. split; [left | done].
    + apply IH in Hrun as (y & s2 & w2 & Hy & Hbody).
      exists y, s2, w2. split; [by right | done].
Qed.

Lemma mapM_Raise_inv {A B} (f : A -> result B) (l : list A) e :
  mapM f l = Raise e -> exists x, x ∈ l /\ f x = Raise e.
Proof.
  induction l as [|x l IH]; simpl; [done|].
  destruct (f x) as [y|e'] eqn:Hx; simpl.
  - destruct (mapM f l) as [ys|e'']; simpl; [done|].
    intros [= ->]. destruct IH as (z & Hz & Hfz); [done|].
    exists z. split; [by right | done].
  - intros [= ->]. exists x. split; [left | done].
Qed.

Lemma get_id_no_Timeout q token w r w' :
  get_id upstream q token w = (r, w') -> r <> Raise Timeout.
Proof.
  unfold get_id, try_except. intros Hrun Hr. subst r.
  destruct (bind _ _ w) as [[v|e] w1]; simplify_eq.
  destruct (is_Timeout e) eqn:He; simplify_eq.
Qed.

Lemma resolve_ids_stdout df token w r w' :
  resolve_ids upstream df token w = (r, w') ->
  exists out, stdout w' = stdout w ++ out /\ out `sublist_of` unique (query <$> df).
Proof.
  unfold resolve_ids. intros Hrun.
  assert (forall x s w r w',
             id_map_entry upstream token x s w = (r, w') ->
             stdout w' = stdout w \/ stdout w' = stdout w ++ [x]) as Hbody.
  { clear. intros q m w r w'. unfold id_map_entry. intros Hrun.
    apply bind_inv in Hrun as [(e & Hfetch & _)|(found & wa & Hfetch & Hrun)];
      apply get_id_stdout in Hfetch as [?|[? _]]; inv_runs; auto. }
  apply bind_inv in Hrun as [(e & Hloop & _)|(id_map & w1 & Hloop & Hrun)];
    apply (for_stdout _ Hbody) in Hloop; [done|].
  by inv_runs.
Qed.

Lemma collect_tracks_data_stdout token id_ w r w' :
  collect_tracks_data upstream token id_ w = (r, w') -> stdout w' = stdout w.
Proof.
  apply for_silent. intros [i|] s w0 r0 w0'; simpl; intros Hrun; [|by inv_runs].
  apply bind_inv in Hrun as [(e & Hfetch & _)|(data & wa & Hfetch & Hrun)];
    apply get_track_data_stdout in Hfetch; [done|]. by inv_runs.
Qed.

Lemma collect_tracks_features_data_stdout token tracks_df w r w' :
  collect_tracks_features_data upstream token tracks_df w = (r, w') ->
  stdout w' = stdout w.
Proof.
  unfold collect_tracks_features_data. intros Hrun.
  apply bind_inv in Hrun as [(e & Hcol & _)|(ids & w1 & Hcol & Hrun)];
    apply lift_inv in Hcol as [_ ->]; [done|].
  revert Hrun. apply for_silent. intros [i|] s w0 r0 w0'; simpl; intros Hrun;
    [|by inv_runs].
  apply bind_inv in Hrun as [(e & Hfetch & _)|(data & wa & Hfetch & Hrun)];
    apply get_track_audio_features_stdout in Hfetch; [done|].
  destruct data; by inv_runs.
Qed.

(** The keys of the rows the metadata loop collects. *)
Lemma for_tracks_data_keys token ids tracks_data w tracks_data' w' :
  for_ ids (tracks_data_step upstream token) tracks_data w = (Ok tracks_data', w') ->
  Forall (fun d => keys d
                   = ["album_type"; "album_id"; "album_name"; "album_release_date";
                      "artist1_id"; "artist1_name"; "artist1_type";
                      "artist2_id"; "artist2_name"; "artist2_type";
                      "duration_ms"; "is_local"; "name"; "popularity"; "type"; "id_"])
         tracks_data ->
  Forall (fun d => keys d
                   = ["album_type"; "album_id"; "album_name"; "album_release_date";
                      "artist1_id"; "artist1_name"; "artist1_type";
                      "artist2_id"; "artist2_name"; "artist2_type";
                      "duration_ms"; "is_local"; "name"; "popularity"; "type"; "id_"])
         tracks_data'.
Proof.
  revert tracks_data w. induction ids as [|[i|] ids IH]; intros tracks_data w Hrun Hkeys;
    simpl in Hrun.
  - by inv_run Hrun.
  - apply bind_inv in Hrun as [(e & _ & ?)|(rows & w1 & Hstep & Hrun)]; [done|].
    apply (IH _ _ Hrun).
    apply bind_inv in Hstep as [(e & _ & ?)|(data & wa & Hfetch & Hstep)]; [done|].
    inv_run Hstep.
    apply get_track_data_Ok in Hfetch as (r & td & _ & _ & _ & Hsel).
    apply Forall_app. split; [done|]. constructor; [|done].
    by eapply selected_data_set_id_keys.
  - apply bind_inv in Hrun as [(e & _ & ?)|(rows & w1 & Hstep & Hrun)]; [done|].
    inv_run Hstep. by apply (IH _ _ Hrun).
Qed.

(** The ids of the rows the audio-feature loop collects: some of the ids it
    went through, in their order. *)
Lemma for_features_kept token ids rows w rows' w' :
  for_ ids (tracks_features_data_step upstream token) rows w = (Ok rows', w') ->
  exists kept,
    kept `sublist_of` present ids /\
    (fun d => dict_get d "id_") <$> rows'
    = ((fun d => dict_get d "id_") <$> rows) ++ ((fun i => Some (VStr i)) <$> kept).
Proof.
  revert rows w. induction ids as [|[i|] ids IH]; intros rows w Hrun; simpl in Hrun.
  - inv_run Hrun. exists []. by rewrite app_nil_r.
  - apply bind_inv in Hrun as [(e & _ & ?)|(rows1 & w1 & Hstep & Hrun)]; [done|].
    apply IH in Hrun as (kept & Hsub & Hrows).
    apply bind_inv in Hstep as [(e & _ & ?)|(data & w2 & Hfetch & Hstep)]; [done|].
    destruct data;
      try (inv_runs; exists kept; split; [by apply sublist_cons | done]).
    all: apply bind_inv in Hstep as [(ex & _ & ?)|(row & w3 & Hset & Hstep)]; [done|];
      apply lift_inv in Hset as [Hset ->]; inv_run Hstep; simplify_eq/=.
    exists (i :: kept). split; [by apply sublist_skip|].
    rewrite Hrows, fmap_app. simpl. rewrite dict_get_set_eq.
    by rewrite <- app_assoc.
  - apply bind_inv in Hrun as [(e & _ & ?)|(rows1 & w1 & Hstep & Hrun)]; [done|].
    inv_run Hstep. by apply IH in Hrun.
Qed.

Lemma collect_tracks_features_data_kept token tracks_data ids w rows w' :
  (fun d => dict_get d "id_") <$> tracks_data = (fun i => Some (VStr i)) <$> ids ->
  NoDup ids ->
  collect_tracks_features_data upstream token (pd_DataFrame tracks_data) w
    = (Ok rows, w') ->
  exists kept,
    kept `sublist_of` ids /\
    (fun d => dict_get d "id_") <$> rows = (fun i => Some (VStr i)) <$> kept.
Proof.
  intros Hids Hnodup. unfold collect_tracks_features_data. intros Hrun.
  apply bind_inv in Hrun as [(e & _ & ?)|(col & w1 & Hcol & Hrun)]; [done|].
  apply lift_inv in Hcol as [Hcol ->]. rewrite (tracks_df_column _ _ Hids) in Hcol.
  assert (col = Some <$> ids) as ->.
  { destruct ids; [done|]. by injection Hcol as ->. }
  clear Hcol. rewrite unique_NoDup in Hrun by (by apply (NoDup_fmap_2 Some)).
  apply for_features_kept in Hrun as (kept & Hsub & Hrows).
  rewrite present_Some in Hsub. by exists kept.
Qed.

(** ** Runs, further *)

(** X1.  Every request a run sends is a search, a metadata or an
    audio-feature request built with the token of the run, and carries the
    three headers of [get_headers], [Authorization: Bearer <token>] among
    them. *)
Theorem requests_carry_bearer_token history token w r w' tr :
  main upstream pd_Timestamp history token w = (r, w') ->
  sent w' = sent w ++ tr ->
  forall req,
    req ∈ tr ->
    headers req = [("Accept", "application/json");
                   ("Content-Type", "application/json");
                   ("Authorization", "Bearer " +:+ token)] /\
    ((exists q, req = search_request q token) \/
     (exists i, req = track_request i token) \/
     (exists i, req = features_request i token)).
Proof.
  intros Hrun Htr req Hreq.
  apply main_effect in Hrun as (qs & ids1 & ids2 & Hsent & _).
  rewrite Htr in Hsent. apply app_inv_head in Hsent. subst tr.
  rewrite !elem_of_app in Hreq.
  destruct Hreq as [Hreq|[Hreq|Hreq]];
    apply list_elem_of_fmap in Hreq as (x & -> & _); (split; [done|]); eauto.
Qed.

(** X3.  No [Timeout] leaves [get_id], whatever raised it; so none leaves
    the resolution stage, and a run that ends with [Timeout] has completed
    resolution and stopped in the metadata or the audio-feature stage. *)
Theorem Timeout_comes_from_downstream :
  (forall q token w r w',
      get_id upstream q token w = (r, w') -> r <> Raise Timeout) /\
  (forall history token w r w',
      resolve_ids upstream history token w = (r, w') -> r <> Raise Timeout) /\
  (forall history token w w',
      main upstream pd_Timestamp history token w = (Raise Timeout, w') ->
      exists qs id_ w1,
        resolve_ids upstream history token w = (Ok (qs, id_), w1) /\
        (collect_tracks_data upstream token id_ w1 = (Raise Timeout, w') \/
         exists tracks_data w2,
           collect_tracks_data upstream token id_ w1 = (Ok tracks_data, w2) /\
           collect_tracks_features_data upstream token (pd_DataFrame tracks_data)
             (log_csv w2 "data/tracks.csv" (pd_DataFrame tracks_data))
           = (Raise Timeout, w'))).
Proof.
  assert (forall history token w r w',
             resolve_ids upstream history token w = (r, w') -> r <> Raise Timeout)
    as Hresolve.
  { intros history token w r w' Hrun ->. unfold resolve_ids in Hrun.
    apply bind_inv in Hrun as [(e & Hloop & He)|(id_map & w1 & Hloop & Hrun)].
    - injection He as <-.
      apply for_Raise_body in Hloop as (q & m & wq & _ & Hstep).
      unfold id_map_entry in Hstep.
      apply bind_inv in Hstep as [(e & Hfetch & He)|(found & wa & Hfetch & Hstep)].
      + injection He as <-. by apply get_id_no_Timeout in Hfetch.
      + apply bind_inv in Hstep as [(e & Hid & He)|(i & wb & _ & Hstep)];
          [|by inv_run Hstep].
        injection He as <-. apply lift_inv in Hid as [Hid _].
        by destruct found.
    - apply bind_inv in Hrun as [(e & Hlook & He)|(ids & w2 & _ & Hrun)];
        [|by inv_run Hrun].
      injection He as <-. apply lift_inv in Hlook as [Hlook _]. symmetry in Hlook.
      apply mapM_Raise_inv in Hlook as (q & _ & Hq).
      unfold id_map_lookup in Hq. by destruct (id_map !! q). }
  split; [apply get_id_no_Timeout|]. split; [exact Hresolve|].
  intros history token w w' Hrun. apply main_run_of in Hrun.
  inversion Hrun as [e Hload
                    |ts e w'' Hload Hres
                    |ts qs id_ w1 e w'' Hload Hres Htracks
                    |ts qs id_ w1 tracks_data w2 e w'' Hload Hres Htracks Hfeat
                    |ts qs id_ w1 tracks_data w2 rows w3 e Hload Hres Htracks Hfeat Hsel
                    |]; subst.
  - unfold shifted_endTime in Hload. destruct history as [|row history]; [done|].
    destruct (mapM _ (endTime <$> row :: history)) as [stamps|e] eqn:Hparse;
      simpl in Hload.
    + done.
    + injection Hload as ->. apply mapM_Raise_inv in Hparse as (s & _ & Hs).
      by destruct (pd_Timestamp s).
  - by apply Hresolve in Hres.
  - exists qs, id_, w1. auto.
  - exists qs, id_, w1. eauto 10.
  - unfold getitem_columns in Hsel. by destruct (missing_labels _ _).
Qed.

(** X8.  The metadata table of a completed run has the fifteen columns of
    the dict display followed by [id_], and one row per distinct non-absent
    id of the records, in the order of first appearance, with that id under
    [id_].  No row lacks a key: a cell of the table is missing only where
    the response held [null]. *)
Theorem tracks_csv_columns history token w w' :
  main upstream pd_Timestamp history token w = (Ok tt, w') ->
  exists qs id_ w1 tracks_data w2 tracks_df,
    resolve_ids upstream history token w = (Ok (qs, id_), w1) /\
    collect_tracks_data upstream token id_ w1 = (Ok tracks_data, w2) /\
    ("data/tracks.csv", tracks_df) ∈ written w' /\
    columns tracks_df
    = ["album_type"; "album_id"; "album_name"; "album_release_date";
       "artist1_id"; "artist1_name"; "artist1_type";
       "artist2_id"; "artist2_name"; "artist2_type";
       "duration_ms"; "is_local"; "name"; "popularity"; "type"; "id_"] /\
    length (records tracks_df) = length (present (unique id_)) /\
    (forall n i,
        present (unique id_) !! n = Some i ->
        cell_at tracks_df n "id_" = Some (Obj (VStr i))) /\
    (forall n c,
        cell_at tracks_df n c = Some NaN ->
        exists d, tracks_data !! n = Some d /\ dict_get d c = Some VNone).
Proof.
  intros Hrun. apply main_run_of in Hrun.
  inversion Hrun as [| | | | |ts qs id_ w1 tracks_data w2 rows w3 df
                               Hload Hres Htracks Hfeat Hsel]; subst.
  destruct (stages_effect _ _ _ _ _ _ _ _ _ _ _ Hres Htracks Hfeat)
    as (done & _ & _ & Hwritten & Hall & _).
  destruct (Hall _ eq_refl) as [-> Hne].
  pose proof (collect_tracks_data_Ok _ _ _ _ _ _ Htracks) as Hids.
  pose proof (for_tracks_data_keys _ _ _ _ _ _ Htracks (Forall_nil_2 _)) as Hkeys.
  assert (length tracks_data = length (present (unique id_))) as Hlen.
  { apply (f_equal length) in Hids. by rewrite !length_fmap in Hids. }
  assert (tracks_data <> []) as Hrows.
  { intros ->. destruct (present (unique id_)); [done | discriminate]. }
  assert (NoDup ["album_type"; "album_id"; "album_name"; "album_release_date";
                 "artist1_id"; "artist1_name"; "artist1_type";
                 "artist2_id"; "artist2_name"; "artist2_type";
                 "duration_ms"; "is_local"; "name"; "popularity"; "type"; "id_"])
    as HK by (refine (bool_decide_unpack _ _); vm_compute; exact I).
  pose proof (columns_uniform tracks_data _ Hrows HK Hkeys) as Hcols.
  exists qs, id_, w1, tracks_data, w2, (pd_DataFrame tracks_data).
  split; [done|]. split; [done|]. split; [|split; [done|split; [|split]]].
  - simpl. rewrite Hwritten, !elem_of_app, !list_elem_of_singleton. auto.
  - unfold pd_DataFrame. cbn [records]. by rewrite length_fmap.
  - intros n i Hi.
    assert (((fun d => dict_get d "id_") <$> tracks_data) !! n = Some (Some (VStr i)))
      as Hn by (by rewrite Hids, list_lookup_fmap, Hi).
    rewrite list_lookup_fmap in Hn.
    destruct (tracks_data !! n) as [d|] eqn:Hd; [|done]. injection Hn as Hn.
    apply cell_at_pd. exists d. split; [done|]. split.
    + rewrite Hcols. do 15 right. left.
    + symmetry. apply row_cell_str; [|done]. by eapply list_elem_of_lookup_2.
  - intros n c (d & Hd & Hc & Hcell)%cell_at_pd. exists d. split; [done|].
    assert (d ∈ tracks_data) as Hin by (by eapply list_elem_of_lookup_2).
    rewrite Forall_forall in Hkeys. rewrite Hcols, <- (Hkeys d Hin) in Hc.
    destruct (dict_get_keys d c Hc) as [v Hv].
    unfold row_cell in Hcell. rewrite Hv in Hcell.
    destruct (float64_column _) eqn:Hfloat; [|done].
    assert (keeps_objects (Some v) = false) as Hnum.
    { apply (float64_column_numbers _ _ Hfloat). rewrite <- Hv.
      by apply (list_elem_of_fmap_2 (fun d' => dict_get d' c)). }
    by destruct v.
Qed.

(** X9.  Once resolution has completed, every record has an id, and it is
    what [get_id] returned for the query of the record when the loop
    called it: [None] for [None], the string for a string. *)
Theorem annotated_ids_are_resolver_results history token w qs id_ w1 :
  resolve_ids upstream history token w = (Ok (qs, id_), w1) ->
  length id_ = length history /\
  forall n row i,
    history !! n = Some row ->
    id_ !! n = Some i ->
    exists wq found wq',
      sent w `prefix_of` sent wq /\ sent wq' `prefix_of` sent w1 /\
      get_id upstream (artistName row +:+ " " +:+ trackName row) token wq
      = (Ok found, wq') /\
      found = of_track_id i.
Proof.
  intros Hres. apply resolve_ids_Ok in Hres as (-> & id_map & Hloop & Hids).
  split.
  { apply Forall2_length in Hids. by rewrite <- Hids, length_fmap. }
  intros n row i Hrow Hi.
  apply for_id_map in Hloop as (_ & Hin & _); [|apply NoDup_unique].
  assert ((query <$> history) !! n = Some (query row)) as Hq
    by (by rewrite list_lookup_fmap, Hrow).
  pose proof (Forall2_lookup_lr _ _ _ _ _ _ Hids Hq Hi) as Hmap.
  destruct (Hin (query row)) as (wq & found & wq' & j & Hpre & Hpost & Hget & Hj & Hmap').
  { apply elem_of_unique. by eapply list_elem_of_lookup_2. }
  rewrite Hmap in Hmap'. injection Hmap' as <-.
  exists wq, found, wq'. split; [done|]. split; [done|]. split; [done|].
  destruct found; simpl in Hj; by simplify_eq.
Qed.

(** X10.  The mapping the comprehension of line 146 builds has exactly the
    queries of the history as keys, so the lookup of line 149 finds every
    row's query and resolution completes. *)
Theorem id_map_has_every_query history token w (id_map : gmap string track_id) w1 :
  for_ (unique (query <$> history)) (id_map_entry upstream token) ∅ w
  = (Ok id_map, w1) ->
  (forall q, is_Some (id_map !! q) <-> q ∈ query <$> history) /\
  exists id_,
    mapM (id_map_lookup id_map) (query <$> history) = Ok id_ /\
    resolve_ids upstream history token w = (Ok (query <$> history, id_), w1).
Proof.
  intros Hloop. split.
  - by eapply id_map_keys.
  - by apply resolve_ids_from_loop.
Qed.

(** X11.  In a completed run every row of the feature table carries the id
    it was requested for; these ids are some of the ids of the metadata
    table, in the same order and each at most once, and there is at least
    one. *)
Theorem feature_rows_join_metadata history token w w' :
  main upstream pd_Timestamp history token w = (Ok tt, w') ->
  exists tracks_df features_df ids kept,
    ("data/tracks.csv", tracks_df) ∈ written w' /\
    ("data/features.csv", features_df) ∈ written w' /\
    getattr_column tracks_df "id_" = Ok ((fun i => Obj (VStr i)) <$> ids) /\
    getattr_column features_df "id_" = Ok ((fun i => Obj (VStr i)) <$> kept) /\
    kept `sublist_of` ids /\ NoDup kept /\ kept <> [].
Proof.
  intros Hrun. apply main_run_of in Hrun.
  inversion Hrun as [| | | | |ts qs id_ w1 tracks_data w2 rows w3 df
                               Hload Hres Htracks Hfeat Hsel]; subst.
  destruct (stages_effect _ _ _ _ _ _ _ _ _ _ _ Hres Htracks Hfeat)
    as (done & _ & _ & Hwritten & Hall & _).
  destruct (Hall _ eq_refl) as [-> Hne].
  pose proof (collect_tracks_data_Ok _ _ _ _ _ _ Htracks) as Hids.
  destruct (collect_tracks_features_data_kept _ _ _ _ _ _ Hids
              (NoDup_present _ (NoDup_unique _)) Hfeat) as (kept & Hsub & Hkept).
  assert (rows <> []) as Hrows.
  { intros ->. by rewrite getitem_columns_empty in Hsel. }
  apply getitem_columns_pd in Hsel as ->.
  exists (pd_DataFrame tracks_data),
    {| columns := keep_features;
       records := (fun d => row_cell rows d <$> keep_features) <$> rows |},
    (present (unique id_)), kept.
  split; [|split; [|split; [|split; [|split; [done|split]]]]].
  - simpl. rewrite Hwritten, !elem_of_app, !list_elem_of_singleton. auto.
  - simpl. rewrite !elem_of_app, !list_elem_of_singleton. auto.
  - by apply tracks_df_id_column.
  - rewrite features_df_id_column. f_equal. by apply id_cells.
  - eapply sublist_NoDup; [|exact Hsub]. apply NoDup_present, NoDup_unique.
  - intros ->. destruct rows; [done | discriminate].
Qed.

(** X12.  What the audio-feature loop does with the body of an accepted
    response: [null] is skipped like a 503, an object is kept with [id_] set
    to the id asked for, overwriting an [id_] of its own, and anything else
    raises [TypeError] at [data['id_'] = id_]. *)
Theorem features_body_kinds token i rows w r body :
  upstream (sent w) (features_request i token) = Responds r ->
  ~ 400 <= status_code r < 600 ->
  content r = Some body ->
  let step := tracks_features_data_step upstream token (Some i) rows w in
  let w' := log_request w (features_request i token) in
  (body = VNone -> step = (Ok rows, w')) /\
  (forall d, body = VDict d ->
             step = (Ok (rows ++ [dict_set d "id_" (VStr i)]), w') /\
             dict_get (dict_set d "id_" (VStr i)) "id_" = Some (VStr i)) /\
  (body <> VNone -> (forall d, body <> VDict d) -> step = (Raise TypeError, w')).
Proof.
  intros Hr Hok Hbody step w'.
  assert (get_track_audio_features upstream i token w = (Ok body, w')) as Hfetch.
  { unfold get_track_audio_features, bind, raise_for_status, response_json.
    rewrite requests_get_run, Hr.
    rewrite decide_False by lia. rewrite decide_False by done. simpl.
    by rewrite Hbody. }
  subst step. simpl. rewrite (bind_Ok _ _ _ _ _ Hfetch).
  split; [by intros ->|]. split.
  - intros d ->. split; [done | apply dict_get_set_eq].
  - intros Hnone Hdict. destruct body; try done. by destruct (Hdict d).
Qed.

(** X13.  When the history is empty or some [endTime] does not parse, the
    run raises at line 121 -- [AttributeError] for the empty frame,
    [ValueError] otherwise -- before anything is sent, printed or
    written. *)
Theorem unparsed_history_sends_nothing history token w :
  (history = [] ->
   main upstream pd_Timestamp history token w = (Raise (AttributeError "endTime"), w)) /\
  (forall row,
      row ∈ history ->
      pd_Timestamp (endTime row) = None ->
      main upstream pd_Timestamp history token w = (Raise ValueError, w)).
Proof.
  split.
  - intros ->. reflexivity.
  - intros row Hrow Hparse. unfold main. apply bind_Raise. unfold lift. f_equal.
    unfold shifted_endTime. destruct history as [|row0 history0];
      [by apply not_elem_of_nil in Hrow|].
    erewrite (mapM_Raise _ _ (endTime row) ValueError); [done| | |].
    + by apply list_elem_of_fmap_2.
    + by rewrite Hparse.
    + intros s e'. by destruct (pd_Timestamp s); intros [= <-].
Qed.

(** X14.  The lines a run prints are queries of the history, each at most
    once and in the order of their first appearance; in a completed run
    the row of every record whose query was printed holds that query under
    [artist+track] and [None] under [id_] in the written history table. *)
Theorem printed_lines_are_unmatched_queries history token w r w' :
  main upstream pd_Timestamp history token w = (r, w') ->
  exists out,
    stdout w' = stdout w ++ out /\
    out `sublist_of` unique (query <$> history) /\
    NoDup out /\
    (r = Ok tt ->
     exists history_df,
       ("data/streaming_history.csv", history_df) ∈ written w' /\
       forall n row,
         history !! n = Some row ->
         artistName row +:+ " " +:+ trackName row ∈ out ->
         cell_at history_df n "artist+track"
         = Some (Obj (VStr (artistName row +:+ " " +:+ trackName row))) /\
         cell_at history_df n "id_" = Some (Obj VNone)).
Proof.
  intros Hrun.
  assert (forall out : list string,
             out `sublist_of` unique (query <$> history) -> NoDup out) as Hnodup.
  { intros out Hsub. eapply sublist_NoDup; [apply NoDup_unique | exact Hsub]. }
  apply main_run_of in Hrun.
  inversion Hrun as [e Hload
                    |ts e w'' Hload Hres
                    |ts qs id_ w1 e w'' Hload Hres Htracks
                    |ts qs id_ w1 tracks_data w2 e w'' Hload Hres Htracks Hfeat
                    |ts qs id_ w1 tracks_data w2 rows w3 e Hload Hres Htracks Hfeat Hsel
                    |ts qs id_ w1 tracks_data w2 rows w3 df Hload Hres Htracks Hfeat Hsel];
    subst.
  - exists []. rewrite app_nil_r. repeat split; auto using sublist_nil_l, NoDup_nil_2.
    done.
  - apply resolve_ids_stdout in Hres as (out & Hout & Hsub).
    exists out. repeat split; auto. done.
  - apply resolve_ids_stdout in Hres as (out & Hout & Hsub).
    apply collect_tracks_data_stdout in Htracks.
    exists out. repeat split; auto; [congruence | done].
  - apply resolve_ids_stdout in Hres as (out & Hout & Hsub).
    apply collect_tracks_data_stdout in Htracks.
    apply collect_tracks_features_data_stdout in Hfeat. simpl in Hfeat.
    exists out. repeat split; auto; [congruence | done].
  - apply resolve_ids_stdout in Hres as (out & Hout & Hsub).
    apply collect_tracks_data_stdout in Htracks.
    apply collect_tracks_features_data_stdout in Hfeat. simpl in Hfeat.
    exists out. repeat split; auto; [congruence | done].
  - apply collect_tracks_data_stdout in Htracks.
    apply collect_tracks_features_data_stdout in Hfeat. simpl in Hfeat.
    apply shifted_endTime_Ok in Hload.
    apply resolve_ids_Ok in Hres as (-> & id_map & Hloop & Hids).
    apply for_id_map in Hloop as (_ & _ & _ & out & Hout & Hsub & Hnone);
      [|apply NoDup_unique].
    exists out. split; [simpl; congruence|]. split; [done|]. split; [auto|].
    intros _. eexists. split.
    { simpl. rewrite !elem_of_app, !list_elem_of_singleton. auto. }
    intros n row Hrow Hprinted.
    destruct (Forall2_lookup_l _ _ _ _ _ Hload Hrow) as (t' & Ht' & _).
    assert ((query <$> history) !! n = Some (query row)) as Hq
      by (by rewrite list_lookup_fmap, Hrow).
    destruct (Forall2_lookup_l _ _ _ _ _ Hids Hq) as (i & Hi & Hmap).
    assert (Some i = Some None) as [= ->].
    { transitivity (id_map !! query row); [symmetry; exact Hmap|].
      exact (Hnone _ Hprinted). }
    by destruct (history_frame_cells _ _ _ _ _ _ _ _ _ Hrow Ht' Hq Hi)
      as (_ & _ & _ & Hquery & Hid).
Qed.

(** ** Runs that complete *)

Lemma get_id_answered q token w :
  (upstream (sent w) (search_request q token) = TimesOut \/
   exists r json tracks items,
     upstream (sent w) (search_request q token) = Responds r /\
     ~ 400 <= status_code r < 600 /\
     content r = Some json /\
     getitem json "tracks" = Ok tracks /\
     getitem tracks "items" = Ok (VList items) /\
     (items = [] \/
      exists first rest i,
        items = first :: rest /\ getitem first "id" = Ok (of_track_id i))) ->
  exists i w', get_id upstream q token w = (Ok (of_track_id i), w').
Proof.
  intros [Hslow|(r & json & tracks & items & Hr & Hok & Hbody & Htracks & Hitems & Hfirst)].
  - exists None. eexists. by apply get_id_Timeout.
  - unfold get_id, try_except, bind, raise_for_status, response_json, lift.
    rewrite requests_get_run, Hr. rewrite decide_False by done. simpl.
    rewrite Hbody. simpl. rewrite Htracks. simpl. rewrite Hitems. simpl.
    destruct Hfirst as [->|(first & rest & i & -> & Hid)]; simpl.
    + exists None. by eexists.
    + rewrite Hid. exists i. by eexists.
Qed.

Lemma as_track_id_of_track_id i : as_track_id (of_track_id i) = Ok i.
Proof. by destruct i. Qed.

Lemma get_track_data_answered i token w r track_data data :
  upstream (sent w) (track_request i token) = Responds r ->
  ~ 400 <= status_code r < 600 ->
  content r = Some track_data ->
  selected_data track_data = Ok data ->
  get_track_data upstream i token w = (Ok data, log_request w (track_request i token)).
Proof.
  intros Hr Hok Hbody Hsel.
  unfold get_track_data, bind, raise_for_status, response_json, lift.
  rewrite requests_get_run, Hr. rewrite decide_False by done. simpl.
  rewrite Hbody. simpl. by rewrite Hsel.
Qed.

(** A step of the audio-feature loop on a 503, a [null] or an object. *)
Lemma tracks_features_data_step_answered token i rows w r :
  upstream (sent w) (features_request i token) = Responds r ->
  status_code r = 503 \/
  ~ 400 <= status_code r < 600 /\
  (content r = Some VNone \/
   exists d, content r = Some (VDict d) /\
             forall k, k ∈ keep_features -> k = "id_" \/ k ∈ keys d) ->
  exists rows' w',
    tracks_features_data_step upstream token (Some i) rows w = (Ok rows', w') /\
    (rows' = rows \/
     exists d, rows' = rows ++ [d] /\ forall k, k ∈ keep_features -> k ∈ keys d) /\
    (status_code r <> 503 -> content r <> Some VNone ->
     length rows' = S (length rows)).
Proof.
  intros Hr Hkind.
  unfold tracks_features_data_step, get_track_audio_features, bind,
    raise_for_status, response_json, lift.
  rewrite requests_get_run, Hr.
  destruct Hkind as [H503|[Hok [Hnull|(d & Hbody & Hkeys)]]].
  - rewrite decide_True by done. simpl. eexists _, _. split; [done|].
    split; [by left|]. done.
  - case_decide as H503.
    { simpl. eexists _, _. split; [done|]. split; [by left|]. done. }
    rewrite decide_False by done. simpl. rewrite Hnull. simpl.
    eexists _, _. split; [done|]. split; [by left|]. done.
  - case_decide as H503.
    { simpl. eexists _, _. split; [done|]. split; [by left|]. done. }
    rewrite decide_False by done. simpl. rewrite Hbody. simpl.
    eexists _, _. split; [done|]. split.
    + right. eexists. split; [done|]. intros k Hk. apply keys_dict_set.
      destruct (Hkeys k Hk); auto.
    + intros _ _. rewrite length_app. simpl. lia.
Qed.

Lemma for_features_progress token ids rows w :
  (forall i log,
      Some i ∈ ids ->
      exists r,
        upstream log (features_request i token) = Responds r /\
        (status_code r = 503 \/
         ~ 400 <= status_code r < 600 /\
         (content r = Some VNone \/
          exists d, content r = Some (VDict d) /\
                    forall k, k ∈ keep_features -> k = "id_" \/ k ∈ keys d))) ->
  Forall (fun d => forall k, k ∈ keep_features -> k ∈ keys d) rows ->
  exists rows' w',
    for_ ids (tracks_features_data_step upstream token) rows w = (Ok rows', w') /\
    Forall (fun d => forall k, k ∈ keep_features -> k ∈ keys d) rows' /\
    (length rows <= length rows')%nat /\
    (forall i,
        Some i ∈ ids ->
        (forall log r,
            upstream log (features_request i token) = Responds r ->
            status_code r <> 503 /\ content r <> Some VNone) ->
        (length rows < length rows')%nat).
Proof.
  revert rows w. induction ids as [|[i|] ids IH]; intros rows w Hans Hrows; simpl.
  - eexists _, _. split; [done|]. split; [done|]. split; [done|].
    by intros i ?%not_elem_of_nil.
  - destruct (Hans i (sent w)) as (r & Hr & Hkind); [left|].
    destruct (tracks_features_data_step_answered token i rows w r Hr Hkind)
      as (rows1 & w1 & Hstep & Hrows1 & Hgrow).
    destruct (IH rows1 w1) as (rows' & w' & Hloop & Hrows' & Hle & Hlt).
    { intros j log Hj. apply Hans. by right. }
    { destruct Hrows1 as [->|(d & -> & Hd)]; [done|].
      apply Forall_app. split; [done|]. by constructor. }
    exists rows', w'. rewrite (bind_Ok _ _ _ _ _ Hstep).
    split; [done|]. split; [done|].
    assert (length rows <= length rows1)%nat as Hle1.
    { destruct Hrows1 as [->|(d & -> & _)]; [done|]. rewrite length_app. lia. }
    split; [lia|].
    intros j [[= <-]|Hj]%elem_of_cons Hj'.
    + destruct (Hj' _ _ Hr) as [H503 Hnull].
      specialize (Hgrow H503 Hnull). lia.
    + specialize (Hlt j Hj Hj'). lia.
  - destruct (IH rows w) as (rows' & w' & Hloop & Hrows' & Hle & Hlt); [|done|].
    { intros j log Hj. apply Hans. by right. }
    exists rows', w'. split; [done|]. split; [done|]. split; [done|].
    intros j [[=]|Hj]%elem_of_cons Hj'. by apply (Hlt j).
Qed.

(** X15.  Resolution completes whenever every search for a query of the
    history is answered: by a deadline that passes, or by an accepted
    response whose [tracks.items] is an empty list or a list whose first
    item has a string or [null] for [id].  Every record then has an id. *)
Theorem resolution_completes history token w :
  (forall q log,
      q ∈ query <$> history ->
      upstream log (search_request q token) = TimesOut \/
      exists r json tracks items,
        upstream log (search_request q token) = Responds r /\
        ~ 400 <= status_code r < 600 /\
        content r = Some json /\
        getitem json "tracks" = Ok tracks /\
        getitem tracks "items" = Ok (VList items) /\
        (items = [] \/
         exists first rest i,
           items = first :: rest /\ getitem first "id" = Ok (of_track_id i))) ->
  exists id_ w1,
    resolve_ids upstream history token w = (Ok (query <$> history, id_), w1) /\
    length id_ = length history.
Proof.
  intros Hans.
  destruct (for_progress (id_map_entry upstream token) (unique (query <$> history)))
    with (s := (∅ : gmap string track_id)) (w := w) as (id_map & w1 & Hloop).
  { intros q m w0 Hq. rewrite elem_of_unique in Hq.
    destruct (get_id_answered q token w0 (Hans q (sent w0) Hq)) as (i & w0' & Hget).
    unfold id_map_entry. rewrite (bind_Ok _ _ _ _ _ Hget).
    unfold lift, bind. rewrite as_track_id_of_track_id. by eexists _, _. }
  destruct (resolve_ids_from_loop _ _ _ _ _ Hloop) as (id_ & Hid & Hres).
  exists id_, w1. split; [done|].
  apply mapM_Ok_Forall2, Forall2_length in Hid.
  by rewrite length_fmap in Hid.
Qed.

(** X16.  A run whose history loads and whose resolution has completed with
    at least one id completes, and writes the three files in the order
    tracks, features, history, when the upstream answers every metadata
    request with a track object [selected_data] can read, answers every
    audio-feature request with a 503, a [null] or an object that has the
    twelve feature keys, and answers those for some id with an object. *)
Theorem run_completes_on_answers history token w endTime' qs id_ w1 i0 :
  shifted_endTime pd_Timestamp history = Ok endTime' ->
  resolve_ids upstream history token w = (Ok (qs, id_), w1) ->
  (forall i log,
      Some i ∈ id_ ->
      exists r track_data data,
        upstream log (track_request i token) = Responds r /\
        ~ 400 <= status_code r < 600 /\
        content r = Some track_data /\
        selected_data track_data = Ok data) ->
  (forall i log,
      Some i ∈ id_ ->
      exists r,
        upstream log (features_request i token) = Responds r /\
        (status_code r = 503 \/
         ~ 400 <= status_code r < 600 /\
         (content r = Some VNone \/
          exists d, content r = Some (VDict d) /\
                    forall k, k ∈ keep_features -> k = "id_" \/ k ∈ keys d))) ->
  Some i0 ∈ id_ ->
  (forall log r,
      upstream log (features_request i0 token) = Responds r ->
      status_code r <> 503 /\ content r <> Some VNone) ->
  exists w',
    main upstream pd_Timestamp history token w = (Ok tt, w') /\
    (written w').*1
    = (written w).*1 ++ ["data/tracks.csv"; "data/features.csv";
                         "data/streaming_history.csv"].
Proof.
  intros Hload Hres Htrack Hfeat Hi0 Hobj.
  assert (forall i, i ∈ present (unique id_) <-> Some i ∈ id_) as Hids.
  { intros i. by rewrite elem_of_present, elem_of_unique. }
  destruct (for_progress (tracks_data_step upstream token) (unique id_))
    with (s := ([] : list dict)) (w := w1) as (tracks_data & w2 & Htracks).
  { intros [i|] rows w0 Hi; rewrite elem_of_unique in Hi; simpl; [|by eexists _, _].
    destruct (Htrack i (sent w0) Hi) as (r & td & data & Hr & Hok & Hbody & Hsel).
    rewrite (bind_Ok _ _ _ _ _ (get_track_data_answered _ _ _ _ _ _ Hr Hok Hbody Hsel)).
    by eexists _, _. }
  fold (collect_tracks_data upstream token id_ w1) in Htracks.
  pose proof (collect_tracks_data_Ok _ _ _ _ _ _ Htracks) as Hcol.
  set (w2' := log_csv w2 "data/tracks.csv" (pd_DataFrame tracks_data)).
  destruct (for_features_progress token (Some <$> present (unique id_)) [] w2')
    as (rows & w3 & Hloop & Hrows & _ & Hlt).
  { intros i log (j & [= <-] & Hj)%list_elem_of_fmap. apply Hfeat. by apply Hids. }
  { constructor. }
  specialize (Hlt i0 ltac:(apply list_elem_of_fmap_2; by apply Hids) Hobj).
  assert (collect_tracks_features_data upstream token (pd_DataFrame tracks_data) w2'
          = (Ok rows, w3)) as Hfeatures.
  { unfold collect_tracks_features_data, bind, lift.
    rewrite (tracks_df_column _ _ Hcol).
    destruct (present (unique id_)) as [|i ids] eqn:Hpresent.
    { apply Hids in Hi0. by apply not_elem_of_nil in Hi0. }
    rewrite unique_NoDup; [done|].
    rewrite <- Hpresent. apply (NoDup_fmap_2 Some), NoDup_present, NoDup_unique. }
  destruct rows as [|row rows]; [simpl in Hlt; lia|].
  assert (exists features_df,
             getitem_columns (pd_DataFrame (row :: rows)) keep_features
             = Ok features_df) as [features_df Hsel].
  { unfold getitem_columns, missing_labels. rewrite filter_nil_intro; [by eexists|].
    intros k Hk Hno. apply Hno, elem_of_columns. exists row. split; [left|].
    by apply (Forall_inv Hrows). }
  destruct (stages_effect _ _ _ _ _ _ _ _ _ _ _ Hres Htracks Hfeatures)
    as (_ & _ & _ & Hwritten & _).
  eexists. split.
  - unfold main.
    rewrite (bind_Ok _ _ _ endTime' w) by (by unfold lift; rewrite Hload).
    rewrite (bind_Ok _ _ _ _ _ Hres). cbn [fst snd].
    rewrite (bind_Ok _ _ _ _ _ Htracks).
    rewrite (bind_Ok _ _ _ tt w2') by done.
    rewrite (bind_Ok _ _ _ _ _ Hfeatures).
    rewrite (bind_Ok _ _ _ features_df w3) by (by unfold lift; rewrite Hsel).
    rewrite (bind_Ok _ _ _ tt (log_csv w3 "data/features.csv" features_df)) by done.
    reflexivity.
  - unfold log_csv. cbn [written]. rewrite Hwritten.
    rewrite !fmap_app. cbn. by rewrite <- !app_assoc.
Qed.

End Further.

(** ** The further properties on the catalog *)

Lemma requests_carry_bearer_token_witness :
  length (sent (snd (mock_main no_fault mock_history))) = 7%nat /\
  forall req,
    req ∈ sent (snd (mock_main no_fault mock_history)) ->
    headers req = [("Accept", "application/json");
                   ("Content-Type", "application/json");
                   ("Authorization", "Bearer token")] /\
    ((exists q, req = search_request q "token") \/
     (exists i, req = track_request i "token") \/
     (exists i, req = features_request i "token")).
Proof.
  split; [reflexivity|].
  apply (requests_carry_bearer_token (mock_upstream no_fault) export_Timestamp
           mock_history "token" world0 (Ok tt) _ _ (mock_main_eta _ _ _ eq_refl)).
  reflexivity.
Defined.

(** A search without a match, a metadata request refused, an audio-feature
    request timing out: one request each. *)
Lemma fetchers_send_one_request_witness :
  (exists w',
      get_id (mock_upstream no_fault) "Nonexistent Artist Nosong" "token" world0
      = (Ok VNone, w') /\
      sent w' = [search_request "Nonexistent Artist Nosong" "token"] /\
      written w' = []) /\
  (exists w',
      get_track_data (fun _ _ => server_error) "abc123" "token" world0
      = (Raise (HTTPError 500), w') /\
      sent w' = [track_request "abc123" "token"] /\
      written w' = [] /\ stdout w' = []) /\
  (exists w',
      get_track_audio_features (mock_upstream (features_fault "abc123" TimesOut))
        "abc123" "token" world0
      = (Raise Timeout, w') /\
      sent w' = [features_request "abc123" "token"] /\
      written w' = [] /\ stdout w' = []).
Proof.
  split; [|split].
  - eexists. split; [vm_compute; reflexivity|].
    destruct (proj1 (fetchers_send_one_request (mock_upstream no_fault) "token")
                "Nonexistent Artist Nosong" world0 _ _ eq_refl) as (Hsent & Hwritten & _).
    split; [exact Hsent | exact Hwritten].
  - eexists. split; [vm_compute; reflexivity|].
    exact (proj1 (proj2 (fetchers_send_one_request (fun _ _ => server_error) "token"))
             "abc123" world0 _ _ eq_refl).
  - eexists. split; [vm_compute; reflexivity|].
    exact (proj2 (proj2 (fetchers_send_one_request
                           (mock_upstream (features_fault "abc123" TimesOut)) "token"))
             "abc123" world0 _ _ eq_refl).
Defined.

(** A search that times out raises nothing; an audio-feature request that
    times out ends the run after resolution and the metadata stage. *)
Lemma Timeout_comes_from_downstream_witness :
  fst (get_id (mock_upstream (search_fault TimesOut)) "Artist One Song" "token" world0)
  <> Raise Timeout /\
  exists qs id_ w1,
    resolve_ids (mock_upstream (features_fault "abc123" TimesOut)) mock_history
      "token" world0 = (Ok (qs, id_), w1) /\
    (collect_tracks_data (mock_upstream (features_fault "abc123" TimesOut))
       "token" id_ w1
     = (Raise Timeout, snd (mock_main (features_fault "abc123" TimesOut) mock_history)) \/
     exists tracks_data w2,
       collect_tracks_data (mock_upstream (features_fault "abc123" TimesOut))
         "token" id_ w1 = (Ok tracks_data, w2) /\
       collect_tracks_features_data (mock_upstream (features_fault "abc123" TimesOut))
         "token" (pd_DataFrame tracks_data)
         (log_csv w2 "data/tracks.csv" (pd_DataFrame tracks_data))
       = (Raise Timeout, snd (mock_main (features_fault "abc123" TimesOut) mock_history))).
Proof.
  split.
  - eapply (proj1 (Timeout_comes_from_downstream
                     (mock_upstream (search_fault TimesOut)) export_Timestamp)).
    apply surjective_pairing.
  - apply (proj2 (proj2 (Timeout_comes_from_downstream
                           (mock_upstream (features_fault "abc123" TimesOut))
                           export_Timestamp))).
    apply mock_main_eta. reflexivity.
Defined.

Lemma get_id_raises_the_rest_witness :
  fst (get_id (mock_upstream (search_fault ConnectionFails)) "Artist One Song"
         "token" world0) = Raise ConnectionError /\
  fst (get_id (mock_upstream
                 (search_fault (Responds {| status_code := 200; content := None |})))
         "Artist One Song" "token" world0) = Raise JSONDecodeError /\
  fst (get_id (mock_upstream
                 (search_fault (Responds {| status_code := 200;
                                            content := Some (VDict []) |})))
         "Artist One Song" "token" world0) = Raise (KeyError (VStr "tracks")) /\
  fst (get_id (mock_upstream
                 (search_fault
                    (Responds {| status_code := 200;
                                 content := Some (VDict [("tracks", VDict [])]) |})))
         "Artist One Song" "token" world0) = Raise (KeyError (VStr "items")) /\
  fst (get_id (mock_upstream
                 (search_fault
                    (Responds
                       {| status_code := 200;
                          content :=
                            Some (VDict [("tracks",
                                          VDict [("items",
                                                  VList [VDict [("name", VStr "Song")]])])])
                       |})))
         "Artist One Song" "token" world0) = Raise (KeyError (VStr "id")).
Proof.
  split; [|split; [|split; [|split]]].
  - rewrite (proj1 (get_id_raises_the_rest
                      (mock_upstream (search_fault ConnectionFails))
                      "Artist One Song" "token" world0));
      reflexivity.
  - erewrite (proj1 (proj2 (get_id_raises_the_rest (mock_upstream (search_fault _))
                              "Artist One Song" "token" world0)));
      [reflexivity | reflexivity | simpl; lia | reflexivity].
  - erewrite (proj1 (proj2 (proj2 (get_id_raises_the_rest
                                     (mock_upstream (search_fault _))
                                     "Artist One Song" "token" world0))));
      [reflexivity | reflexivity | simpl; lia | reflexivity | reflexivity].
  - erewrite (proj1 (proj2 (proj2 (proj2 (get_id_raises_the_rest
                                            (mock_upstream (search_fault _))
                                            "Artist One Song" "token" world0)))));
      [reflexivity | reflexivity | simpl; lia | reflexivity | reflexivity | reflexivity].
  - erewrite (proj2 (proj2 (proj2 (proj2 (get_id_raises_the_rest
                                            (mock_upstream (search_fault _))
                                            "Artist One Song" "token" world0)))));
      [reflexivity | reflexivity | simpl; lia | reflexivity | reflexivity
      | reflexivity | reflexivity].
Defined.

Lemma get_track_data_raises_witness :
  timeout (track_request "abc123" "token") = None /\
  fst (get_track_data (fun _ _ => TimesOut) "abc123" "token" world0) = Raise Timeout /\
  fst (get_track_data (fun _ _ => ConnectionFails) "abc123" "token" world0)
  = Raise ConnectionError /\
  fst (get_track_data (fun _ _ => unavailable) "abc123" "token" world0)
  = Raise (HTTPError 503).
Proof.
  split; [|split; [|split]].
  - apply (get_track_data_raises (fun _ _ => TimesOut) "abc123" "token" world0).
  - rewrite (proj1 (proj2 (get_track_data_raises (fun _ _ => TimesOut)
                             "abc123" "token" world0))); reflexivity.
  - rewrite (proj1 (proj2 (proj2 (get_track_data_raises (fun _ _ => ConnectionFails)
                                    "abc123" "token" world0)))); reflexivity.
  - rewrite (proj2 (proj2 (proj2 (get_track_data_raises (fun _ _ => unavailable)
                                    "abc123" "token" world0)))
               {| status_code := 503; content := None |});
      [reflexivity | reflexivity | simpl; lia].
Defined.

Lemma selected_data_fields_witness :
  exists data w',
    get_track_data (mock_upstream no_fault) "def456" "token" world0 = (Ok data, w') /\
    dict_get data "album_release_date" = Some (VStr "2020") /\
    dict_get data "artist1_name" = Some (VStr "Artist Two") /\
    dict_get data "popularity" = Some (VInt 7).
Proof.
  eexists _, _. split; [vm_compute; reflexivity|].
  destruct (selected_data_fields (mock_upstream no_fault) "def456" "token" world0 _ _
              eq_refl)
    as (r & td & album & artists & first & Hr & Hbody & Halbum & Hartists & Hfirst
        & _ & Hal & Har & Hflat).
  injection Hr as <-. injection Hbody as <-.
  injection Halbum as <-. injection Hartists as <-. injection Hfirst as <-.
  split; [|split].
  - destruct (Hal "release_date") as (v & Hv & Hget);
      [refine (bool_decide_unpack _ _); vm_compute; exact I|].
    injection Hv as <-. exact Hget.
  - destruct (Har "name") as (v & Hv & Hget);
      [refine (bool_decide_unpack _ _); vm_compute; exact I|].
    injection Hv as <-. exact Hget.
  - destruct (Hflat "popularity") as (v & Hv & Hget);
      [refine (bool_decide_unpack _ _); vm_compute; exact I|].
    injection Hv as <-. exact Hget.
Defined.

Lemma get_track_data_no_artist_witness :
  fst (get_track_data
         (fun _ _ =>
            Responds
              {| status_code := 200;
                 content :=
                   Some (VDict [("album",
                                 VDict [("type", VStr "album"); ("id", VStr "AL1");
                                        ("name", VStr "Album One");
                                        ("release_date", VStr "2019-05-17")]);
                                ("artists", VList []);
                                ("name", VStr "Song")]) |})
         "abc123" "token" world0)
  = Raise IndexError.
Proof.
  erewrite get_track_data_no_artist;
    [reflexivity | reflexivity | simpl; lia | reflexivity | reflexivity | | reflexivity].
  intros k Hk.
  repeat (apply elem_of_cons in Hk as [->|Hk]); try (eexists; reflexivity).
  by apply not_elem_of_nil in Hk.
Defined.

Lemma tracks_csv_columns_witness :
  exists tracks_df,
    ("data/tracks.csv", tracks_df) ∈ written (snd (mock_main no_fault mock_history)) /\
    columns tracks_df
    = ["album_type"; "album_id"; "album_name"; "album_release_date";
       "artist1_id"; "artist1_name"; "artist1_type";
       "artist2_id"; "artist2_name"; "artist2_type";
       "duration_ms"; "is_local"; "name"; "popularity"; "type"; "id_"] /\
    length (records tracks_df) = 2%nat /\
    cell_at tracks_df 1 "id_" = Some (Obj (VStr "def456")).
Proof.
  destruct (tracks_csv_columns (mock_upstream no_fault) export_Timestamp
              mock_history "token" world0 _ (mock_main_eta _ _ _ eq_refl))
    as (qs & id_ & w1 & tracks_data & w2 & tracks_df
        & Hres & _ & Hin & Hcols & Hlen & Hid & _).
  vm_compute in Hres. injection Hres as <- <- <-.
  exists tracks_df. split; [exact Hin|]. split; [exact Hcols|]. split; [exact Hlen|].
  apply Hid. reflexivity.
Defined.

Lemma annotated_ids_are_resolver_results_witness :
  exists qs id_ w1,
    resolve_ids (mock_upstream no_fault) mock_history "token" world0
    = (Ok (qs, id_), w1) /\
    length id_ = 4%nat /\
    forall n row i,
      mock_history !! n = Some row ->
      id_ !! n = Some i ->
      exists wq found wq',
        sent world0 `prefix_of` sent wq /\ sent wq' `prefix_of` sent w1 /\
        get_id (mock_upstream no_fault) (artistName row +:+ " " +:+ trackName row)
          "token" wq = (Ok found, wq') /\
        found = of_track_id i.
Proof.
  eexists _, _, _. split; [vm_compute; reflexivity|].
  eapply (annotated_ids_are_resolver_results (mock_upstream no_fault) mock_history
            "token" world0).
  vm_compute. reflexivity.
Defined.

Lemma id_map_has_every_query_witness :
  exists id_ w1,
    resolve_ids (mock_upstream no_fault) mock_history "token" world0
    = (Ok (query <$> mock_history, id_), w1).
Proof.
  destruct (for_ (unique (query <$> mock_history))
              (id_map_entry (mock_upstream no_fault) "token") ∅ world0)
    as [[id_map|e] w1] eqn:Hloop; [|vm_compute in Hloop; discriminate].
  destruct (id_map_has_every_query (mock_upstream no_fault) mock_history "token"
              world0 id_map w1 Hloop) as (_ & id_ & _ & Hres).
  by exists id_, w1.
Defined.

Lemma feature_rows_join_metadata_witness :
  exists tracks_df features_df ids kept,
    ("data/tracks.csv", tracks_df) ∈ written (snd (mock_main no_fault mock_history)) /\
    ("data/features.csv", features_df)
      ∈ written (snd (mock_main no_fault mock_history)) /\
    getattr_column tracks_df "id_" = Ok ((fun i => Obj (VStr i)) <$> ids) /\
    getattr_column features_df "id_" = Ok ((fun i => Obj (VStr i)) <$> kept) /\
    kept `sublist_of` ids /\ NoDup kept /\ kept <> [].
Proof.
  apply (feature_rows_join_metadata (mock_upstream no_fault) export_Timestamp
           mock_history "token" world0).
  apply mock_main_eta. reflexivity.
Defined.

Lemma features_body_kinds_witness :
  tracks_features_data_step
    (fun _ _ => Responds {| status_code := 200; content := Some VNone |})
    "token" (Some "abc123") [] world0
  = (Ok [], log_request world0 (features_request "abc123" "token")) /\
  tracks_features_data_step
    (fun _ _ => Responds {| status_code := 200;
                            content := Some (VDict [("id_", VStr "other");
                                                    ("energy", VFloat 578 (-3))]) |})
    "token" (Some "abc123") [] world0
  = (Ok [[("id_", VStr "abc123"); ("energy", VFloat 578 (-3))]],
     log_request world0 (features_request "abc123" "token")) /\
  tracks_features_data_step
    (fun _ _ => Responds {| status_code := 200; content := Some (VList []) |})
    "token" (Some "abc123") [] world0
  = (Raise TypeError, log_request world0 (features_request "abc123" "token")).
Proof.
  split; [|split].
  - exact (proj1 (features_body_kinds
                    (fun _ _ => Responds {| status_code := 200; content := Some VNone |})
                    "token" "abc123" [] world0 _ VNone eq_refl
                    ltac:(simpl; lia) eq_refl) eq_refl).
  - exact (proj1 (proj1 (proj2 (features_body_kinds
                                  (fun _ _ => Responds
                                     {| status_code := 200;
                                        content := Some (VDict [("id_", VStr "other");
                                                                ("energy", VFloat 578 (-3))]) |})
                                  "token" "abc123" [] world0 _ _ eq_refl
                                  ltac:(simpl; lia) eq_refl))
                   _ eq_refl)).
  - apply (proj2 (proj2 (features_body_kinds
                           (fun _ _ => Responds {| status_code := 200;
                                                   content := Some (VList []) |})
                           "token" "abc123" [] world0 _ (VList []) eq_refl
                           ltac:(simpl; lia) eq_refl)));
      [discriminate | intros d; discriminate].
Defined.

Lemma unparsed_history_sends_nothing_witness :
  main (mock_upstream no_fault) export_Timestamp [] "token" world0
  = (Raise (AttributeError "endTime"), world0) /\
  main (mock_upstream no_fault) export_Timestamp
    [ {| endTime := "2021-03-01 22:30"; artistName := "Artist One";
         trackName := "Song" |};
      {| endTime := "yesterday"; artistName := "Artist Two"; trackName := "Tune" |} ]
    "token" world0
  = (Raise ValueError, world0).
Proof.
  split.
  - apply (unparsed_history_sends_nothing (mock_upstream no_fault) export_Timestamp).
    reflexivity.
  - apply (proj2 (unparsed_history_sends_nothing (mock_upstream no_fault)
                    export_Timestamp
                    [ {| endTime := "2021-03-01 22:30"; artistName := "Artist One";
                         trackName := "Song" |};
                      {| endTime := "yesterday"; artistName := "Artist Two";
                         trackName := "Tune" |} ]
                    "token" world0)
             {| endTime := "yesterday"; artistName := "Artist Two";
                trackName := "Tune" |}).
    + right. left.
    + reflexivity.
Defined.

Lemma printed_lines_are_unmatched_queries_witness :
  exists out history_df,
    stdout (snd (mock_main no_fault mock_history)) = out /\
    "Nonexistent Artist Nosong" ∈ out /\
    ("data/streaming_history.csv", history_df)
      ∈ written (snd (mock_main no_fault mock_history)) /\
    cell_at history_df 1 "artist+track" = Some (Obj (VStr "Nonexistent Artist Nosong")) /\
    cell_at history_df 1 "id_" = Some (Obj VNone).
Proof.
  destruct (printed_lines_are_unmatched_queries (mock_upstream no_fault)
              export_Timestamp mock_history "token" world0 (Ok tt) _
              (mock_main_eta _ _ _ eq_refl))
    as (out & Hout & _ & _ & Hdone).
  destruct (Hdone eq_refl) as (history_df & Hin & Hrows).
  assert ("Nonexistent Artist Nosong" ∈ out) as Hprinted.
  { pose proof Hout as Hout'. vm_compute in Hout'. rewrite <- Hout'. left. }
  exists out, history_df. split; [exact Hout|]. split; [exact Hprinted|].
  split; [exact Hin|].
  exact (Hrows 1%nat _ eq_refl Hprinted).
Defined.

Lemma resolution_completes_witness :
  exists id_ w1,
    resolve_ids (mock_upstream no_fault) mock_history "token" world0
    = (Ok (query <$> mock_history, id_), w1) /\
    length id_ = 4%nat.
Proof.
  apply (resolution_completes (mock_upstream no_fault) mock_history "token" world0).
  intros q log Hq. right.
  change (q ∈ ["Artist One Song"; "Nonexistent Artist Nosong"; "Artist One Song";
               "Artist Two Tune"]) in Hq.
  repeat (apply elem_of_cons in Hq as [->|Hq]);
    [| | | |by apply not_elem_of_nil in Hq];
    eexists _, _, _, _;
    (split; [reflexivity|]); (split; [simpl; lia|]); (split; [reflexivity|]);
    (split; [reflexivity|]); (split; [reflexivity|]).
  - right. by eexists _, _, (Some _).
  - by left.
  - right. by eexists _, _, (Some _).
  - right. by eexists _, _, (Some _).
Defined.

Lemma run_completes_on_answers_witness :
  exists w',
    main (mock_upstream no_fault) export_Timestamp mock_history "token" world0
    = (Ok tt, w') /\
    (written w').*1
    = ["data/tracks.csv"; "data/features.csv"; "data/streaming_history.csv"].
Proof.
  eapply (run_completes_on_answers (mock_upstream no_fault) export_Timestamp
            mock_history "token" world0 _ _ _ _ "abc123").
  - vm_compute. reflexivity.
  - vm_compute. reflexivity.
  - intros i log Hi.
    repeat (apply elem_of_cons in Hi as [Hi|Hi]); try discriminate Hi;
      [injection Hi as -> ..|by apply not_elem_of_nil in Hi];
      eexists _, _, _; (split; [reflexivity|]); (split; [simpl; lia|]);
      (split; [reflexivity|]); vm_compute; reflexivity.
  - intros i log Hi.
    repeat (apply elem_of_cons in Hi as [Hi|Hi]); try discriminate Hi;
      [injection Hi as -> ..|by apply not_elem_of_nil in Hi];
      eexists; (split; [reflexivity|]); right; (split; [simpl; lia|]); right;
      eexists; (split; [reflexivity|]); apply Forall_forall;
      refine (bool_decide_unpack _ _); vm_compute; exact I.
  - refine (bool_decide_unpack _ _). vm_compute. exact I.
  - intros log r [= <-]. split; [simpl; lia | discriminate].
Defined.
